(** * lcmgr: lifecycle manager for a systemd unit on an EC2 instance

    A shallow embedding of the Go packages [lcmgr] (notice.go, listener.go,
    the AWS client and the service handler) and [main] (the dispatch loop),
    followed by the properties of the notice-coordination engine.

    Conventions of the embedding.
    - A Go [error] is [option error]: [None] is the nil error.
    - A Go interface value that may be nil ([Notice]) is an [option].
    - A function returning [(T, error)] returns a pair, as the Go code does.
    - Calls to the outside (systemd over D-Bus, EC2 metadata, Auto Scaling,
      SQS) are answered by records of scripted responses; the requests that
      change something outside are appended to a log.
    - Goroutines and [select] are run by an explicit schedule: a list of
      choices, one per step, so every interleaving is a list and every run
      can be evaluated. *)

From stdpp Require Import base strings list gmap.
From Stdlib Require Import ZArith Lia.

(** ** Go prelude *)

Module golang.

(** An [error] made by [errors.New] or [fmt.Errorf] is its message; an
    [awserr.Error] also carries a code and the error it wraps. *)
Inductive error :=
| errors_New (msg : string)
| awserr_New (code message : string) (origErr : error).

Fixpoint Error (e : error) : string :=
  match e with
  | errors_New msg => msg
  | awserr_New code message origErr =>
      code +:+ ": " +:+ message +:+ " caused by: " +:+ Error origErr
  end.

#[global] Instance error_eq_dec : EqDecision error.
Proof. solve_decision. Defined.

(** [strings.Contains]. *)
Definition strings_Contains (s substr : string) : bool :=
  match String.index 0 substr s with
  | Some _ => true
  | None => false
  end.

(** The [%v] verb applied to an [error] that may be nil. *)
Definition fmt_v (err : option error) : string :=
  match err with
  | Some e => Error e
  | None => "<nil>"
  end.

(** A function that either returns or panics (nil-map write, nil pointer). *)
Inductive GoResult (A : Type) :=
| Returns (a : A)
| Panics (msg : string).
Arguments Returns {A} a.
Arguments Panics {A} msg.

(** [time.Time] and [time.Duration] are opaque to the program: it only
    stores and forwards them. *)
Definition Time := Z.
Definition Duration := Z.

(** [context.Context]: the program reads [Err()] and [Done()] only. *)
Record Context := { ctx_Err : option error }.

Definition context_Canceled : error := errors_New "context canceled".
Definition context_Background : Context := {| ctx_Err := None |}.
(** [context.WithCancel(parent)]: the child starts in the parent's state;
    [cancel()] moves it to canceled. *)
Definition context_WithCancel (parent : Context) : Context := parent.
Definition cancel (ctx : Context) : Context :=
  match ctx_Err ctx with
  | Some _ => ctx
  | None => {| ctx_Err := Some context_Canceled |}
  end.
Definition ctx_Done (ctx : Context) : bool :=
  match ctx_Err ctx with Some _ => true | None => false end.

End golang.

(** ** The outside world

    Each package the program talks to is a record of responses: what the
    call returns for a given request.  The records are values, so a test
    can script them and a theorem can quantify over them. *)

(** systemd over D-Bus (github.com/coreos/go-systemd/dbus). *)
Module dbus.
Import golang.

Record UnitStatus := { Name : string; ActiveState : string }.

Record Conn := {
  New : option error;
  ListUnitsByNames : list string -> list UnitStatus * option error;
  (** [StartUnit name mode ch] returns the job id; the job's result is
      sent on [ch] when the job is over. *)
  StartUnit : string -> string -> Z * option error;
  StartUnit_result : string;
  StopUnit : string -> string -> Z * option error;
  StopUnit_result : string
}.

End dbus.

(** aws/arn. *)
Module arn.

Record ARN := {
  Partition : string;
  Service : string;
  Region : string;
  AccountID : string;
  Resource : string
}.

End arn.

(** aws/ec2metadata. *)
Module ec2metadata.
Import golang.

Record EC2Metadata := {
  Available : bool;
  GetMetadata : string -> string * option error
}.

End ec2metadata.

(** service/autoscaling. *)
Module autoscaling.
Import golang.

Record Details := { GroupName : string }.

(** The SDK's fields are string pointers; the two the program
    dereferences without a check are options here. *)
Record LifecycleHook := {
  NotificationTargetARN : option string;
  LifecycleTransition : option string
}.

Record RecordLifecycleActionHeartbeatInput := {
  hb_InstanceId : string;
  hb_AutoScalingGroupName : string;
  hb_LifecycleHookName : string;
  hb_LifecycleActionToken : string
}.

Record CompleteLifecycleActionInput := {
  InstanceId : string;
  AutoScalingGroupName : string;
  LifecycleHookName : string;
  LifecycleActionToken : string;
  LifecycleActionResult : string
}.

Record AutoScaling := {
  DescribeAutoScalingInstancesWithContext :
    Context -> list string -> list Details * option error;
  DescribeLifecycleHooksWithContext :
    Context -> string -> list LifecycleHook * option error;
  RecordLifecycleActionHeartbeat :
    RecordLifecycleActionHeartbeatInput -> option error;
  CompleteLifecycleAction :
    CompleteLifecycleActionInput -> option error
}.

End autoscaling.

(** service/sqs. *)
Module sqs.
Import golang.

Record Message := { Body : string; ReceiptHandle : string }.

Record GetQueueUrlInput := {
  QueueName : string;
  QueueOwnerAWSAccountId : string
}.

Record ReceiveMessageInput := {
  rm_QueueUrl : string;
  MaxNumberOfMessages : Z;
  WaitTimeSeconds : Z;
  VisibilityTimeout : Z
}.

Record DeleteMessageInput := {
  QueueUrl : string;
  dm_ReceiptHandle : string
}.

Record SQS := {
  GetQueueUrlWithContext : Context -> GetQueueUrlInput -> string * option error;
  ReceiveMessageWithContext :
    Context -> ReceiveMessageInput -> list Message * option error;
  DeleteMessageWithContext : Context -> DeleteMessageInput -> option error
}.

End sqs.

(** ** Package lcmgr *)

Module lcmgr.
Import golang.

(** *** notice.go *)

Record LifecycleNotice := {
  LifecycleHookName : string;
  LifecycleActionToken : string
}.

(** The three implementations of the [Notice] interface. *)
Inductive Notice :=
| SpotNotice (TerminationTime : Time)
| LaunchNotice (ln : LifecycleNotice)
| TerminationNotice (ln : LifecycleNotice).

Definition NewSpotNotice (terminationTime : Time) : Notice :=
  SpotNotice terminationTime.

Definition NewLaunchNotice (hook token : string) : Notice :=
  LaunchNotice {| LifecycleHookName := hook; LifecycleActionToken := token |}.

Definition NewTerminationNotice (hook token : string) : Notice :=
  TerminationNotice {| LifecycleHookName := hook; LifecycleActionToken := token |}.

Definition Notice_Type (notice : Notice) : string :=
  match notice with
  | SpotNotice _ => "spot"
  | LaunchNotice _ => "launch"
  | TerminationNotice _ => "termination"
  end.

#[global] Instance LifecycleNotice_eq_dec : EqDecision LifecycleNotice.
Proof. solve_decision. Defined.
#[global] Instance Notice_eq_dec : EqDecision Notice.
Proof. solve_decision. Defined.

(** *** The AWS client *)

Definition LaunchLifecycleAction : string := "autoscaling:EC2_INSTANCE_LAUNCHING".
Definition TerminationLifecycleAction : string := "autoscaling:EC2_INSTANCE_TERMINATING".

Record Queue := {
  Action : string;
  Name : string;
  URL : string
}.

(** The body of a queue message once decoded. *)
Record Message := {
  EC2InstanceID : string;
  msg_LifecycleHookName : string;
  msg_LifecycleActionToken : string;
  LifecycleTransition : string
}.

#[global] Instance Queue_eq_dec : EqDecision Queue.
Proof. solve_decision. Defined.

(** The interface [AWSClient].  A method takes the client and returns it:
    the implementation caches what it has looked up. *)
Class AWSClient (C : Type) := {
  GetInstanceID : C -> (string * option error) * C;
  GetAutoScalingGroupName : Context -> C -> (string * option error) * C;
  GetLifecycleNoticeQueues :
    Context -> C -> GoResult ((list Queue * option error) * C);
  GetSpotNotice : C -> (option Notice * option error) * C;
  GetLifecycleNotice :
    Context -> Queue -> C -> (option Notice * option error) * C;
  SendHeartbeat : Context -> Notice -> C -> option error * C;
  CompleteLifecycleAction : Context -> Notice -> C -> option error * C
}.

(** Library functions the client calls: [arn.Parse], [json.Unmarshal] into
    a [Message] ([None] when it returns an error) and
    [time.Parse(time.RFC3339, _)]. *)
Record Library := {
  arn_Parse : string -> arn.ARN * option error;
  json_Unmarshal : string -> option Message;
  time_Parse : string -> Time * option error
}.

(** The requests that change something outside, in the order issued. *)
Inductive Request :=
| ReqRecordLifecycleActionHeartbeat
    (input : autoscaling.RecordLifecycleActionHeartbeatInput)
| ReqCompleteLifecycleAction (input : autoscaling.CompleteLifecycleActionInput)
| ReqDeleteMessage (input : sqs.DeleteMessageInput).

(** The struct [awsClient]; [Requests] is the log, not a field of the Go
    struct. *)
Record awsClient := {
  AutoScaling : autoscaling.AutoScaling;
  EC2Metadata : ec2metadata.EC2Metadata;
  SQS : sqs.SQS;
  AutoScalingGroupName : string;
  InstanceID : string;
  Requests : list Request
}.

Definition set_InstanceID (client : awsClient) (v : string) : awsClient :=
  {| AutoScaling := AutoScaling client; EC2Metadata := EC2Metadata client;
     SQS := SQS client; AutoScalingGroupName := AutoScalingGroupName client;
     InstanceID := v; Requests := Requests client |}.

Definition set_AutoScalingGroupName (client : awsClient) (v : string) : awsClient :=
  {| AutoScaling := AutoScaling client; EC2Metadata := EC2Metadata client;
     SQS := SQS client; AutoScalingGroupName := v;
     InstanceID := InstanceID client; Requests := Requests client |}.

Definition issue (client : awsClient) (r : Request) : awsClient :=
  {| AutoScaling := AutoScaling client; EC2Metadata := EC2Metadata client;
     SQS := SQS client; AutoScalingGroupName := AutoScalingGroupName client;
     InstanceID := InstanceID client; Requests := Requests client ++ [r] |}.

Definition awsClient_GetInstanceID (client : awsClient)
  : (string * option error) * awsClient :=
  if negb (String.eqb (InstanceID client) "") then
    ((InstanceID client, None), client)
  else if negb (ec2metadata.Available (EC2Metadata client)) then
    (("", Some (errors_New "unable to access ec2 metadata api")), client)
  else
    let '(instanceID, err) :=
      ec2metadata.GetMetadata (EC2Metadata client) "instance-id" in
    match err with
    | Some e => (("", Some e), client)
    | None => ((instanceID, None), set_InstanceID client instanceID)
    end.

Definition awsClient_GetAutoScalingGroupName (ctx : Context) (client : awsClient)
  : (string * option error) * awsClient :=
  if negb (String.eqb (AutoScalingGroupName client) "") then
    ((AutoScalingGroupName client, None), client)
  else
    let '(instanceID, err) :=
      ec2metadata.GetMetadata (EC2Metadata client) "instance-id" in
    match err with
    | Some e => (("", Some e), client)
    | None =>
        let '(output, err) :=
          autoscaling.DescribeAutoScalingInstancesWithContext
            (AutoScaling client) ctx [instanceID] in
        match err with
        | Some e => (("", Some e), client)
        | None =>
            match output with
            | [instance] =>
                let autoScalingGroupName := autoscaling.GroupName instance in
                ((autoScalingGroupName, None),
                 set_AutoScalingGroupName client autoScalingGroupName)
            | _ =>
                (("", Some (errors_New
                   "instance is not controlled by an auto scaling group")),
                 client)
            end
        end
    end.

(** A Go [map[string]*Queue]: [None] is the nil map, which reads as empty
    and panics when written. *)
Definition QueueMap := option (gmap string Queue).

Definition map_has (queues : QueueMap) (key : string) : bool :=
  match queues with
  | None => false
  | Some m => bool_decide (is_Some (m !! key))
  end.

Definition map_assign (queues : QueueMap) (key : string) (v : Queue)
  : GoResult QueueMap :=
  match queues with
  | None => Panics "assignment to entry in nil map"
  | Some m => Returns (Some (<[key := v]> m))
  end.

Definition map_values (queues : QueueMap) : list Queue :=
  match queues with
  | None => []
  | Some m => (map_to_list m).*2
  end.

Definition nil_dereference : string :=
  "invalid memory address or nil pointer dereference".

(** The loop over [output.LifecycleHooks]: the map after the loop, or the
    error of the early return. *)
Fixpoint discover (lib : Library) (ctx : Context) (client : awsClient)
    (hooks : list autoscaling.LifecycleHook) (queues : QueueMap)
  : GoResult (QueueMap + error) :=
  match hooks with
  | [] => Returns (inl queues)
  | hook :: hooks =>
      match autoscaling.NotificationTargetARN hook with
      | None => Panics nil_dereference
      | Some target =>
          if map_has queues target then discover lib ctx client hooks queues
          else
            let '(parsed, err) := arn_Parse lib target in
            match err with
            | Some e => Returns (inr e)
            | None =>
                if negb (String.eqb (arn.Service parsed) "sqs") then
                  discover lib ctx client hooks queues
                else
                  let input :=
                    {| sqs.QueueName := arn.Resource parsed;
                       sqs.QueueOwnerAWSAccountId := arn.AccountID parsed |} in
                  let '(output, err) :=
                    sqs.GetQueueUrlWithContext (SQS client) ctx input in
                  match err with
                  | Some e => Returns (inr e)
                  | None =>
                      match autoscaling.LifecycleTransition hook with
                      | None => Panics nil_dereference
                      | Some transition =>
                          match map_assign queues target
                                  {| Action := transition;
                                     Name := arn.Resource parsed;
                                     URL := output |} with
                          | Panics msg => Panics msg
                          | Returns queues =>
                              discover lib ctx client hooks queues
                          end
                      end
                  end
            end
      end
  end.

Definition awsClient_GetLifecycleNoticeQueues (lib : Library) (ctx : Context)
    (client : awsClient) : GoResult ((list Queue * option error) * awsClient) :=
  let '((autoScalingGroupName, err), client) :=
    awsClient_GetAutoScalingGroupName ctx client in
  match err with
  | Some e => Returns (([], Some e), client)
  | None =>
      let '(output, err) :=
        autoscaling.DescribeLifecycleHooksWithContext
          (AutoScaling client) ctx autoScalingGroupName in
      match err with
      | Some e => Returns (([], Some e), client)
      | None =>
          (* var queues map[string]*Queue *)
          let queues : QueueMap := None in
          match discover lib ctx client output queues with
          | Panics msg => Panics msg
          | Returns (inr e) => Returns (([], Some e), client)
          | Returns (inl queues) =>
              let unique := map_values queues in
              Returns ((unique, None), client)
          end
      end
  end.

Definition awsClient_GetSpotNotice (lib : Library) (client : awsClient)
  : (option Notice * option error) * awsClient :=
  let '(output, err) :=
    ec2metadata.GetMetadata (EC2Metadata client) "spot/termination-time" in
  match err with
  | Some (awserr_New _ _ origErr as e) =>
      if strings_Contains (Error origErr) "404" then ((None, None), client)
      else ((None, Some e), client)
  | Some e => ((None, Some e), client)
  | None =>
      let '(terminationTime, err) := time_Parse lib output in
      match err with
      | Some e => ((None, Some e), client)
      | None => ((Some (NewSpotNotice terminationTime), None), client)
      end
  end.

(** [var notice Notice; switch m.LifecycleTransition { ... }]: the switch
    has no default case, so [notice] stays nil on any other transition. *)
Definition switch_LifecycleTransition (m : Message) : option Notice :=
  if String.eqb (LifecycleTransition m) LaunchLifecycleAction then
    Some (NewLaunchNotice (msg_LifecycleHookName m) (msg_LifecycleActionToken m))
  else if String.eqb (LifecycleTransition m) TerminationLifecycleAction then
    Some (NewTerminationNotice (msg_LifecycleHookName m)
                               (msg_LifecycleActionToken m))
  else None.

(** The request that deletes [message] from [queue]. *)
Definition delete_input (queue : Queue) (message : sqs.Message)
  : sqs.DeleteMessageInput :=
  {| sqs.QueueUrl := URL queue;
     sqs.dm_ReceiptHandle := sqs.ReceiptHandle message |}.

(** The loop over [output.Messages]. *)
Fixpoint receive (lib : Library) (ctx : Context) (queue : Queue)
    (instanceID : string) (messages : list sqs.Message) (client : awsClient)
  : (option Notice * option error) * awsClient :=
  match messages with
  | [] => ((None, None), client)
  | message :: messages =>
      match json_Unmarshal lib (sqs.Body message) with
      | None => receive lib ctx queue instanceID messages client
      | Some m =>
          if negb (String.eqb (EC2InstanceID m) instanceID) then
            receive lib ctx queue instanceID messages client
          else
            let input := delete_input queue message in
            let err := sqs.DeleteMessageWithContext (SQS client) ctx input in
            let client := issue client (ReqDeleteMessage input) in
            match err with
            | Some e => ((None, Some e), client)
            | None =>
                let notice := switch_LifecycleTransition m in
                ((notice, None), client)
            end
      end
  end.

(** The input of the [ReceiveMessage] call. *)
Definition receive_input (queue : Queue) : sqs.ReceiveMessageInput :=
  {| sqs.rm_QueueUrl := URL queue;
     sqs.MaxNumberOfMessages := 10;
     sqs.WaitTimeSeconds := 20;
     sqs.VisibilityTimeout := 0 |}.

Definition awsClient_GetLifecycleNotice (lib : Library) (ctx : Context)
    (queue : Queue) (client : awsClient)
  : (option Notice * option error) * awsClient :=
  let '((instanceID, err), client) := awsClient_GetInstanceID client in
  match err with
  | Some e => ((None, Some e), client)
  | None =>
      let input := receive_input queue in
      let '(output, err) :=
        sqs.ReceiveMessageWithContext (SQS client) ctx input in
      match err with
      | Some e => ((None, Some e), client)
      | None => receive lib ctx queue instanceID output client
      end
  end.

(** The decoded body of a message that is addressed to [instanceID]:
    [json.Unmarshal] succeeds and [m.EC2InstanceID == instanceID]. *)
Definition addressed_to (lib : Library) (instanceID : string)
    (message : sqs.Message) : option Message :=
  match json_Unmarshal lib (sqs.Body message) with
  | Some m => if String.eqb (EC2InstanceID m) instanceID then Some m else None
  | None => None
  end.

(** No message of the list is addressed to [instanceID]. *)
Definition not_addressed (lib : Library) (instanceID : string)
  : list sqs.Message -> Prop :=
  Forall (fun message => addressed_to lib instanceID message = None).

(** The type switch shared by [SendHeartbeat] and [CompleteLifecycleAction]. *)
Definition lifecycleNotice_of (notice : Notice) : option LifecycleNotice :=
  match notice with
  | LaunchNotice n => Some n
  | TerminationNotice n => Some n
  | SpotNotice _ => None
  end.

(** The input of [RecordLifecycleActionHeartbeat]. *)
Definition heartbeat_input (instanceID autoScalingGroupName : string)
    (lifecycleNotice : LifecycleNotice)
  : autoscaling.RecordLifecycleActionHeartbeatInput :=
  {| autoscaling.hb_InstanceId := instanceID;
     autoscaling.hb_AutoScalingGroupName := autoScalingGroupName;
     autoscaling.hb_LifecycleHookName := LifecycleHookName lifecycleNotice;
     autoscaling.hb_LifecycleActionToken :=
       LifecycleActionToken lifecycleNotice |}.

(** The input of [CompleteLifecycleAction]. *)
Definition complete_input (instanceID autoScalingGroupName : string)
    (lifecycleNotice : LifecycleNotice)
  : autoscaling.CompleteLifecycleActionInput :=
  {| autoscaling.InstanceId := instanceID;
     autoscaling.AutoScalingGroupName := autoScalingGroupName;
     autoscaling.LifecycleHookName := LifecycleHookName lifecycleNotice;
     autoscaling.LifecycleActionToken := LifecycleActionToken lifecycleNotice;
     autoscaling.LifecycleActionResult := "CONTINUE" |}.

Definition is_completion_request (r : Request) : bool :=
  match r with ReqCompleteLifecycleAction _ => true | _ => false end.

(** The completion requests of a log. *)
Definition completion_requests (log : list Request) : list Request :=
  List.filter is_completion_request log.

Definition awsClient_SendHeartbeat (ctx : Context) (notice : Notice)
    (client : awsClient) : option error * awsClient :=
  match lifecycleNotice_of notice with
  | None =>
      (Some (errors_New ("cannot send heartbeat for " +:+ Notice_Type notice
                         +:+ " notice")), client)
  | Some lifecycleNotice =>
      let '((instanceID, err), client) := awsClient_GetInstanceID client in
      match err with
      | Some e => (Some e, client)
      | None =>
          let '((autoScalingGroupName, err), client) :=
            awsClient_GetAutoScalingGroupName ctx client in
          match err with
          | Some e => (Some e, client)
          | None =>
              let input :=
                heartbeat_input instanceID autoScalingGroupName
                  lifecycleNotice in
              (autoscaling.RecordLifecycleActionHeartbeat
                 (AutoScaling client) input,
               issue client (ReqRecordLifecycleActionHeartbeat input))
          end
      end
  end.

Definition awsClient_CompleteLifecycleAction (ctx : Context) (notice : Notice)
    (client : awsClient) : option error * awsClient :=
  match lifecycleNotice_of notice with
  | None =>
      (Some (errors_New ("cannot continue lifecycle action for "
                         +:+ Notice_Type notice +:+ " notice")), client)
  | Some lifecycleNotice =>
      let '((instanceID, err), client) := awsClient_GetInstanceID client in
      match err with
      | Some e => (Some e, client)
      | None =>
          let '((autoScalingGroupName, err), client) :=
            awsClient_GetAutoScalingGroupName ctx client in
          match err with
          | Some e => (Some e, client)
          | None =>
              let input :=
                complete_input instanceID autoScalingGroupName
                  lifecycleNotice in
              (autoscaling.CompleteLifecycleAction (AutoScaling client) input,
               issue client (ReqCompleteLifecycleAction input))
          end
      end
  end.

#[global] Instance awsClient_AWSClient (lib : Library) : AWSClient awsClient := {
  GetInstanceID := awsClient_GetInstanceID;
  GetAutoScalingGroupName := awsClient_GetAutoScalingGroupName;
  GetLifecycleNoticeQueues := awsClient_GetLifecycleNoticeQueues lib;
  GetSpotNotice := awsClient_GetSpotNotice lib;
  GetLifecycleNotice := awsClient_GetLifecycleNotice lib;
  SendHeartbeat := awsClient_SendHeartbeat;
  CompleteLifecycleAction := awsClient_CompleteLifecycleAction
}.

(** *** The service handler *)

(** What a [Handle] call does that can be seen from outside, in order. *)
Inductive Event :=
| StartUnit (name mode : string)     (* conn.StartUnit *)
| StopUnit (name mode : string)      (* conn.StopUnit *)
| Heartbeat (notice : Notice)        (* handler.Client.SendHeartbeat *)
| Complete (notice : Notice)         (* handler.Client.CompleteLifecycleAction *)
| Cancel                             (* cancel() *)
| Printf (msg : string).             (* log.Printf *)

#[global] Instance Event_eq_dec : EqDecision Event.
Proof. solve_decision. Defined.

Definition HandlerFunc := Notice -> list Event * option error.

(** The struct [ServiceHandler]; its [Client] field is a reference to the
    shared client, which the model threads through the configuration. *)
Record ServiceHandler := {
  Service : string;
  HeartbeatInterval : Duration
}.

(** [fmt.Errorf] as a statement: the error is built and dropped. *)
Definition discard {A : Type} (e : error) (k : A) : A := k.

Definition WaitForServiceStart (handler : ServiceHandler) (conn : dbus.Conn)
  : HandlerFunc := fun notice =>
  match dbus.New conn with
  | Some e => ([], Some e)
  | None =>
      let '(units, err) := dbus.ListUnitsByNames conn [Service handler] in
      match err with
      | Some e => ([], Some e)
      | None =>
          if negb (length units =? 1) then
            ([], Some (errors_New ("failed to list status of systemd unit "
                                   +:+ Service handler +:+ ": " +:+ fmt_v err)))
          else
            let '(n, err) := dbus.StartUnit conn (Service handler) "fail" in
            match err with
            | Some e => ([StartUnit (Service handler) "fail"], Some e)
            | None =>
                (if (n =? 0)%Z then
                   discard (errors_New ("failed to start systemd unit "
                      +:+ Service handler +:+ " due to unknown error"))
                 else id)
                (let result := dbus.StartUnit_result conn in
                 (if negb (String.eqb result "done") then
                    discard (errors_New ("failed to start systemd unit "
                       +:+ Service handler +:+ ", job returned " +:+ result
                       +:+ " result"))
                  else id)
                 ([StartUnit (Service handler) "fail"], None))
            end
      end
  end.

Definition WaitForServiceStop (handler : ServiceHandler) (conn : dbus.Conn)
  : HandlerFunc := fun notice =>
  match dbus.New conn with
  | Some e => ([], Some e)
  | None =>
      let '(units, err) := dbus.ListUnitsByNames conn [Service handler] in
      match err with
      | Some e => ([], Some e)
      | None =>
          if negb (length units =? 1) then
            ([], Some (errors_New ("failed to list status of systemd unit "
                                   +:+ Service handler +:+ ": " +:+ fmt_v err)))
          else
            let '(n, err) := dbus.StopUnit conn (Service handler) "fail" in
            match err with
            | Some e => ([StopUnit (Service handler) "fail"], Some e)
            | None =>
                (if (n =? 0)%Z then
                   discard (errors_New ("failed to start systemd unit "
                      +:+ Service handler +:+ " due to unknown error"))
                 else id)
                (let result := dbus.StopUnit_result conn in
                 (if negb (String.eqb result "done") then
                    discard (errors_New ("failed to start systemd unit "
                       +:+ Service handler +:+ ", job returned " +:+ result
                       +:+ " result"))
                  else id)
                 ([StopUnit (Service handler) "fail"], None))
            end
      end
  end.

(** The events of the actions: calls to systemd. *)
Definition systemd_event (e : Event) : Prop :=
  match e with
  | StartUnit _ _ | StopUnit _ _ => True
  | _ => False
  end.

Definition is_Heartbeat (e : Event) : bool :=
  match e with Heartbeat _ => true | _ => false end.
Definition is_Complete (e : Event) : bool :=
  match e with Complete _ => true | _ => false end.
Definition is_Cancel (e : Event) : bool :=
  match e with Cancel => true | _ => false end.

(** The heartbeats, the completions and the stop signals of a trace. *)
Definition heartbeats (t : list Event) : list Event := List.filter is_Heartbeat t.
Definition completions (t : list Event) : list Event := List.filter is_Complete t.
Definition cancels (t : list Event) : list Event := List.filter is_Cancel t.

(** What follows the first completion in a trace. *)
Fixpoint after_completion (t : list Event) : list Event :=
  match t with
  | [] => []
  | e :: t => if is_Complete e then t else after_completion t
  end.

(** Where the thread that called [ForLifecycleAction] stands. *)
Inductive MainPC :=
| AtSpawn                         (* before WithCancel, NewTicker and go *)
| AtAction                        (* before err := f(ctx, notice) *)
| AtComplete (err : option error) (* before Client.CompleteLifecycleAction *)
| AtCancel (err : option error)   (* before cancel() *)
| Returned (err : option error).  (* after return err *)

(** Where the heartbeat goroutine stands. *)
Inductive HeartbeatPC :=
| NotSpawned
| Selecting                       (* at the select of its loop *)
| Exited.                         (* after its return *)

Record Config (C : Type) := {
  main_pc : MainPC;
  heartbeat_pc : HeartbeatPC;
  ctx : Context;                  (* the context the goroutine watches *)
  ticker_C : bool;                (* a tick is waiting in ticker.C *)
  client : C;
  trace : list Event
}.
Arguments main_pc {C} _.
Arguments heartbeat_pc {C} _.
Arguments ctx {C} _.
Arguments ticker_C {C} _.
Arguments client {C} _.
Arguments trace {C} _.

(** One step of a run: which thread moves, or what the outside does. *)
Inductive Choice :=
| RunMain          (* the calling thread runs its next statement *)
| TakeTick         (* the goroutine's select takes <-ticker.C *)
| TakeDone         (* the goroutine's select takes <-ctx.Done() *)
| TickerFires      (* the ticker puts a tick in ticker.C *)
| ParentCanceled.  (* the context passed to Handle is canceled *)

Section Handler.
Context {C : Type} `{AWSClient C}.

(** One step of [ForLifecycleAction].  A choice that cannot be taken where
    the run stands leaves the configuration as it is.  The ticker is the
    outside's: [time.NewTicker] is given the handler's interval, taken to
    be positive as [NewTicker] requires, and when it fires is up to the
    schedule. *)
Definition ForLifecycleAction_step (handler : ServiceHandler) (notice : Notice)
    (f : HandlerFunc) (choice : Choice) (s : Config C) : Config C :=
  match choice with
  | RunMain =>
      match main_pc s with
      | AtSpawn =>
          {| main_pc := AtAction; heartbeat_pc := Selecting;
             ctx := context_WithCancel (ctx s); ticker_C := false;
             client := client s; trace := trace s |}
      | AtAction =>
          let '(events, err) := f notice in
          let printed :=
            match err with
            | Some e => [Printf ("failed to run " +:+ Notice_Type notice
                                 +:+ " handler: " +:+ Error e)]
            | None => []
            end in
          {| main_pc := AtComplete err; heartbeat_pc := heartbeat_pc s;
             ctx := ctx s; ticker_C := ticker_C s; client := client s;
             trace := trace s ++ events ++ printed |}
      | AtComplete err =>
          let '(err', client') :=
            CompleteLifecycleAction (ctx s) notice (client s) in
          let printed :=
            match err' with
            | Some e => [Printf ("failed to complete " +:+ Notice_Type notice
                                 +:+ " lifecycle action: " +:+ Error e)]
            | None => []
            end in
          {| main_pc := AtCancel err; heartbeat_pc := heartbeat_pc s;
             ctx := ctx s; ticker_C := ticker_C s; client := client';
             trace := trace s ++ Complete notice :: printed |}
      | AtCancel err =>
          {| main_pc := Returned err; heartbeat_pc := heartbeat_pc s;
             ctx := cancel (ctx s); ticker_C := ticker_C s;
             client := client s; trace := trace s ++ [Cancel] |}
      | Returned _ => s
      end
  | TakeTick =>
      match heartbeat_pc s with
      | Selecting =>
          if ticker_C s then
            let '(_, client') := SendHeartbeat (ctx s) notice (client s) in
            {| main_pc := main_pc s; heartbeat_pc := Selecting;
               ctx := ctx s; ticker_C := false; client := client';
               trace := trace s ++ [Heartbeat notice] |}
          else s
      | _ => s
      end
  | TakeDone =>
      match heartbeat_pc s with
      | Selecting =>
          if ctx_Done (ctx s) then
            {| main_pc := main_pc s; heartbeat_pc := Exited;
               ctx := ctx s; ticker_C := ticker_C s; client := client s;
               trace := trace s |}
          else s
      | _ => s
      end
  | TickerFires =>
      match main_pc s with
      | AtSpawn => s
      | _ =>
          {| main_pc := main_pc s; heartbeat_pc := heartbeat_pc s;
             ctx := ctx s; ticker_C := true; client := client s;
             trace := trace s |}
      end
  | ParentCanceled =>
      {| main_pc := main_pc s; heartbeat_pc := heartbeat_pc s;
         ctx := cancel (ctx s); ticker_C := ticker_C s; client := client s;
         trace := trace s |}
  end.

Definition run (handler : ServiceHandler) (notice : Notice) (f : HandlerFunc)
    (schedule : list Choice) (s : Config C) : Config C :=
  fold_left (fun s choice => ForLifecycleAction_step handler notice f choice s)
            schedule s.

(** [ForLifecycleAction] under a schedule: the configuration reached from
    the call. *)
Definition ForLifecycleAction (handler : ServiceHandler) (ctx0 : Context)
    (notice : Notice) (f : HandlerFunc) (schedule : list Choice) (client0 : C)
  : Config C :=
  run handler notice f schedule
    {| main_pc := AtSpawn; heartbeat_pc := NotSpawned; ctx := ctx0;
       ticker_C := false; client := client0; trace := [] |}.

(** A call that runs on the calling thread alone. *)
Definition direct (ctx0 : Context) (client0 : C)
    (r : list Event * option error) : Config C :=
  {| main_pc := Returned (snd r); heartbeat_pc := NotSpawned; ctx := ctx0;
     ticker_C := false; client := client0; trace := fst r |}.

(** [Handle]; a nil [Notice] takes the default case of the type switch. *)
Definition Handle (handler : ServiceHandler) (conn : dbus.Conn)
    (ctx0 : Context) (notice : option Notice) (schedule : list Choice)
    (client0 : C) : Config C :=
  match notice with
  | Some (SpotNotice _ as notice) =>
      direct ctx0 client0 (WaitForServiceStop handler conn notice)
  | Some (LaunchNotice _ as notice) =>
      ForLifecycleAction handler ctx0 notice
        (WaitForServiceStart handler conn) schedule client0
  | Some (TerminationNotice _ as notice) =>
      ForLifecycleAction handler ctx0 notice
        (WaitForServiceStop handler conn) schedule client0
  | None =>
      direct ctx0 client0
        ([], Some (errors_New "failed to handle unexpected notice type"))
  end.

(** The statements the calling thread has yet to run. *)
Definition remaining (pc : MainPC) : nat :=
  match pc with
  | AtSpawn => 4
  | AtAction => 3
  | AtComplete _ => 2
  | AtCancel _ => 1
  | Returned _ => 0
  end.

(** What the call returned, once it has. *)
Definition result (s : Config C) : option (option error) :=
  match main_pc s with
  | Returned err => Some err
  | _ => None
  end.

(** What holds of a call of [ForLifecycleAction] at every step, by where
    the calling thread stands: nothing has happened before the goroutine is
    spawned, the error the thread carries is the action's, the completion
    is sent when the thread passes [AtComplete] and the stop signal when it
    passes [AtCancel]; and the goroutine has exited only if the context is
    done. *)
Definition handler_inv (notice : Notice) (f : HandlerFunc) (s : Config C)
  : Prop :=
  (heartbeat_pc s = Exited -> ctx_Done (ctx s) = true) /\
  match main_pc s with
  | AtSpawn => heartbeat_pc s = NotSpawned /\ trace s = []
  | AtAction => completions (trace s) = [] /\ cancels (trace s) = []
  | AtComplete err =>
      err = snd (f notice) /\
      completions (trace s) = [] /\ cancels (trace s) = []
  | AtCancel err =>
      err = snd (f notice) /\
      completions (trace s) = [Complete notice] /\ cancels (trace s) = []
  | Returned err =>
      err = snd (f notice) /\
      completions (trace s) = [Complete notice] /\
      cancels (trace s) = [Cancel] /\
      ctx_Done (ctx s) = true /\
      forall t1 t2, trace s = t1 ++ Cancel :: t2 -> Complete notice ∈ t1
  end.

End Handler.

(** What holds of the client of a call whose client knew the instance and
    its group from the start: it still knows them, and its log has gained
    the completion request once the calling thread has passed
    [AtComplete], and no other completion request. *)
Definition wire_inv (client0 : awsClient) (ln : LifecycleNotice)
    (s : Config awsClient) : Prop :=
  InstanceID (client s) = InstanceID client0 /\
  AutoScalingGroupName (client s) = AutoScalingGroupName client0 /\
  completion_requests (Requests (client s))
    = completion_requests (Requests client0) ++
      match main_pc s with
      | AtCancel _ | Returned _ =>
          [ReqCompleteLifecycleAction
             (complete_input (InstanceID client0)
                (AutoScalingGroupName client0) ln)]
      | _ => []
      end.

(** The action [Handle] passes to [ForLifecycleAction]. *)
Definition action_of (handler : ServiceHandler) (conn : dbus.Conn)
    (notice : Notice) : HandlerFunc :=
  match notice with
  | LaunchNotice _ => WaitForServiceStart handler conn
  | _ => WaitForServiceStop handler conn
  end.

(** *** listener.go *)

(** The variables of a [Listen] loop and what it has done so far. *)
Record Listening (C : Type) := {
  notice : option Notice;        (* var notice Notice *)
  notices : bool;                (* var notices chan Notice: true once it is
                                    listener.Notices, false while nil *)
  listener_client : C;
  sent : list (option Notice);   (* the values accepted on listener.Notices *)
  polled : list (option Notice); (* the notices the client calls returned *)
  logged : list string;          (* log.Printf *)
  returned : option (option error) (* Some err once Listen has returned err *)
}.
Arguments notice {C} _.
Arguments notices {C} _.
Arguments listener_client {C} _.
Arguments sent {C} _.
Arguments polled {C} _.
Arguments logged {C} _.
Arguments returned {C} _.

(** The case a [select] takes.  [SendAccepted] stands for the receiver
    taking the value; it can only happen on a non-nil channel. *)
Inductive SpotSelect :=
| SpotSendAccepted               (* case notices <- notice *)
| SpotTick                       (* case <-ticker.C *)
| SpotDone.                      (* case <-ctx.Done() *)

Inductive LifecycleSelect :=
| LifecycleSendAccepted          (* case notices <- notice *)
| LifecycleDone                  (* case <-ctx.Done() *)
| LifecycleDefault.              (* default: no other case is ready *)

Section Listeners.
Context {C : Type} `{AWSClient C}.

Definition listening (client0 : C) : Listening C :=
  {| notice := None; notices := false; listener_client := client0;
     sent := []; polled := []; logged := []; returned := None |}.

(** [if notice != nil { notices = listener.Notices }] *)
Definition arm (s : Listening C) : bool :=
  match notice s with
  | Some _ => true
  | None => notices s
  end.

(** One iteration of the loop of [SpotListener.Listen]. *)
Definition SpotListener_iteration (selected : SpotSelect) (s : Listening C)
  : Listening C :=
  match returned s with
  | Some _ => s
  | None =>
      let notices' := arm s in
      match selected with
      | SpotSendAccepted =>
          if notices' then
            {| notice := notice s; notices := false;
               listener_client := listener_client s;
               sent := sent s ++ [notice s]; polled := polled s;
               logged := logged s; returned := None |}
          else s
      | SpotTick =>
          let '((notice', err), client') := GetSpotNotice (listener_client s) in
          {| notice := notice'; notices := notices';
             listener_client := client'; sent := sent s;
             polled := polled s ++ [notice'];
             logged := logged s ++
               match err with
               | Some e => ["failed to get spot notice: " +:+ Error e]
               | None => []
               end;
             returned := None |}
      | SpotDone =>
          {| notice := notice s; notices := notices';
             listener_client := listener_client s; sent := sent s;
             polled := polled s; logged := logged s; returned := Some None |}
      end
  end.

Definition SpotListener_Listen (selects : list SpotSelect) (client0 : C)
  : Listening C :=
  fold_left (fun s selected => SpotListener_iteration selected s)
            selects (listening client0).

(** One iteration of the loop of [LifecycleListener.Listen]. *)
Definition LifecycleListener_iteration (ctx0 : Context) (queue : Queue)
    (selected : LifecycleSelect) (s : Listening C) : Listening C :=
  match returned s with
  | Some _ => s
  | None =>
      let notices' := arm s in
      match selected with
      | LifecycleSendAccepted =>
          if notices' then
            {| notice := notice s; notices := false;
               listener_client := listener_client s;
               sent := sent s ++ [notice s]; polled := polled s;
               logged := logged s; returned := None |}
          else s
      | LifecycleDone =>
          {| notice := notice s; notices := notices';
             listener_client := listener_client s; sent := sent s;
             polled := polled s; logged := logged s; returned := Some None |}
      | LifecycleDefault =>
          let '((notice', err), client') :=
            GetLifecycleNotice ctx0 queue (listener_client s) in
          {| notice := notice'; notices := notices';
             listener_client := client'; sent := sent s;
             polled := polled s ++ [notice'];
             logged := logged s ++
               match err with
               | Some e => ["failed to get lifecycle notice from queue "
                            +:+ Name queue +:+ ": " +:+ Error e]
               | None => []
               end;
             returned := None |}
      end
  end.

Definition LifecycleListener_Listen (ctx0 : Context) (queue : Queue)
    (selects : list LifecycleSelect) (client0 : C) : Listening C :=
  fold_left (fun s selected => LifecycleListener_iteration ctx0 queue selected s)
            selects (listening client0).

End Listeners.

(** The result of the latest poll, nil before the first. *)
Definition latest (polls : list (option Notice)) : option Notice :=
  match last polls with
  | Some v => v
  | None => None
  end.

(** What holds of a listener between two iterations: the slot is the
    result of the latest poll, the channel variable is set only after a
    poll, and every value sent was the result of a poll. *)
Definition slot_inv {C : Type} (s : Listening C) : Prop :=
  notice s = latest (polled s) /\
  (arm s = true -> polled s <> []) /\
  Forall (fun v => v ∈ polled s) (sent s).

(** What an iteration may do to a listener that keeps [slot_inv]: the
    polls only grow. *)
Definition extends {C : Type} (s s' : Listening C) : Prop :=
  slot_inv s' /\ exists more, polled s' = polled s ++ more.

(** *** Further vocabulary of traces, schedules and logs *)

Definition is_systemd (e : Event) : bool :=
  match e with StartUnit _ _ | StopUnit _ _ => true | _ => false end.

(** The calls to systemd of a trace. *)
Definition systemd_calls (t : list Event) : list Event :=
  List.filter is_systemd t.

Definition is_TickerFires (choice : Choice) : bool :=
  match choice with TickerFires => true | _ => false end.

(** How many times the ticker fires in a schedule. *)
Definition fires (schedule : list Choice) : nat :=
  length (List.filter is_TickerFires schedule).

Definition is_heartbeat_request (r : Request) : bool :=
  match r with ReqRecordLifecycleActionHeartbeat _ => true | _ => false end.

(** The heartbeat requests of a log. *)
Definition heartbeat_requests (log : list Request) : list Request :=
  List.filter is_heartbeat_request log.

Definition is_delete_request (r : Request) : bool :=
  match r with ReqDeleteMessage _ => true | _ => false end.

(** The delete requests of a log. *)
Definition delete_requests (log : list Request) : list Request :=
  List.filter is_delete_request log.

(** What more holds of a call of [ForLifecycleAction] at every step: the
    goroutine exists once the calling thread has passed [AtSpawn]; the
    calls to systemd in the trace are the action's, there from the moment
    the thread has passed [AtAction]; none follows the completion; and
    every heartbeat is for the Notice of the call. *)
Definition action_inv {C : Type} (notice : Notice) (f : HandlerFunc)
    (s : Config C) : Prop :=
  (main_pc s = AtSpawn \/ heartbeat_pc s <> NotSpawned) /\
  systemd_calls (trace s)
    = match main_pc s with
      | AtSpawn | AtAction => []
      | _ => fst (f notice)
      end /\
  systemd_calls (after_completion (trace s)) = [] /\
  Forall (eq (Heartbeat notice)) (heartbeats (trace s)).

(** What holds of the log of a client that knew the instance and its
    group from the start, at every step of a call: one heartbeat request
    per heartbeat of the trace, each with the Notice's hook and token, and
    no delete request. *)
Definition heartbeat_wire_inv (client0 : awsClient) (ln : LifecycleNotice)
    (s : Config awsClient) : Prop :=
  InstanceID (client s) = InstanceID client0 /\
  AutoScalingGroupName (client s) = AutoScalingGroupName client0 /\
  heartbeat_requests (Requests (client s))
    = heartbeat_requests (Requests client0) ++
      replicate (length (heartbeats (trace s)))
        (ReqRecordLifecycleActionHeartbeat
           (heartbeat_input (InstanceID client0)
              (AutoScalingGroupName client0) ln)) /\
  delete_requests (Requests (client s)) = delete_requests (Requests client0).

(** The client with another metadata service, and with another Auto
    Scaling service. *)
Definition with_EC2Metadata (client : awsClient)
    (metadata : ec2metadata.EC2Metadata) : awsClient :=
  {| AutoScaling := AutoScaling client; EC2Metadata := metadata;
     SQS := SQS client; AutoScalingGroupName := AutoScalingGroupName client;
     InstanceID := InstanceID client; Requests := Requests client |}.

Definition with_AutoScaling (client : awsClient)
    (scaling : autoscaling.AutoScaling) : awsClient :=
  {| AutoScaling := scaling; EC2Metadata := EC2Metadata client;
     SQS := SQS client; AutoScalingGroupName := AutoScalingGroupName client;
     InstanceID := InstanceID client; Requests := Requests client |}.

(** A hook that notifies something other than an SQS queue: its target
    is there, parses, and names another service. *)
Definition non_sqs (lib : Library) (hook : autoscaling.LifecycleHook) : Prop :=
  exists target parsed,
    autoscaling.NotificationTargetARN hook = Some target /\
    arn_Parse lib target = (parsed, None) /\
    arn.Service parsed <> "sqs".

(** What holds of a listener none of whose polls has found a Notice: the
    slot is empty, the channel variable is nil and nothing was sent. *)
Definition quiet_inv {C : Type} (s : Listening C) : Prop :=
  Forall (eq None) (polled s) ->
  notice s = None /\ notices s = false /\ sent s = [].

(** The polls that found a Notice. *)
Definition found (polls : list (option Notice)) : list (option Notice) :=
  List.filter (fun v => match v with Some _ => true | None => false end) polls.

(** The implementations of the interface [Listener]: [SpotListener], and
    [LaunchListener] and [TerminationListener], which both embed a
    [LifecycleListener] and differ in [Type()] only. *)
Inductive Listener :=
| SpotListener (Interval : Duration)
| LaunchListener (queue : Queue)
| TerminationListener (queue : Queue).

Definition NewSpotListener (interval : Duration) : Listener :=
  SpotListener interval.

Definition NewLifecycleListener (queue : Queue) : Listener :=
  if String.eqb (Action queue) LaunchLifecycleAction then LaunchListener queue
  else if String.eqb (Action queue) TerminationLifecycleAction
  then TerminationListener queue
  else TerminationListener queue.

Definition Listener_Type (listener : Listener) : string :=
  match listener with
  | SpotListener _ => "spot"
  | LaunchListener _ => "launch"
  | TerminationListener _ => "termination"
  end.

(** The case a listener's [select] takes, for either kind of listener. *)
Inductive Selected :=
| OfSpot (selected : SpotSelect)
| OfLifecycle (selected : LifecycleSelect).

(** One iteration of [listener.Listen(ctx)]; a case of the other kind of
    listener cannot be taken. *)
Definition Listener_iteration {C : Type} `{AWSClient C} (ctx0 : Context)
    (listener : Listener) (selected : Selected) (s : Listening C)
  : Listening C :=
  match listener, selected with
  | SpotListener _, OfSpot selected => SpotListener_iteration selected s
  | LaunchListener queue, OfLifecycle selected
  | TerminationListener queue, OfLifecycle selected =>
      LifecycleListener_iteration ctx0 queue selected s
  | _, _ => s
  end.

(** The listener's variables with the client as it stands now: the
    listeners hold one and the same client. *)
Definition with_client {C : Type} (s : Listening C) (c : C) : Listening C :=
  {| notice := notice s; notices := notices s; listener_client := c;
     sent := sent s; polled := polled s; logged := logged s;
     returned := returned s |}.

(** 1 for a waiting tick, 0 for none. *)
Definition waiting (s_ticker_C : bool) : nat := if s_ticker_C then 1 else 0.

End lcmgr.

(** ** Package main *)

Module cmd.
Import golang lcmgr.

(** What the [select] of the dispatch loop receives. *)
Inductive Received :=
| FromNotices (notice : option Notice)   (* case notice = <-notices *)
| FromSignals.                           (* case <-signals *)

(** How the loop stands when the inputs are used up. *)
Inductive Loop (S : Type) :=
| LoopOver (ctx : Context) (s : S) (handled : list (option Notice))
           (printed : list string)       (* the for condition was false *)
| Waiting (ctx : Context) (s : S) (handled : list (option Notice))
          (printed : list string)        (* blocked in select *)
| Panicked (msg : string) (handled : list (option Notice)).
Arguments LoopOver {S} _ _ _ _.
Arguments Waiting {S} _ _ _ _.
Arguments Panicked {S} _ _.

Section Dispatch.
Context {S : Type}.
(** [handler.Handle]: [handler] has the interface type [Handler]. *)
Variable Handle : Context -> option Notice -> S -> option error * S.

(** [for ctx.Err() != nil { select { ... } }] *)
Fixpoint loop (received : list Received) (ctx : Context) (s : S)
    (handled : list (option Notice)) (printed : list string) : Loop S :=
  match ctx_Err ctx with
  | None => LoopOver ctx s handled printed
  | Some _ =>
      match received with
      | [] => Waiting ctx s handled printed
      | FromNotices notice :: received =>
          let '(err, s) := Handle ctx notice s in
          match err, notice with
          | None, _ => loop received ctx s (handled ++ [notice]) printed
          | Some e, Some n =>
              loop received ctx s (handled ++ [notice])
                (printed ++ ["failed to handle " +:+ Notice_Type n
                             +:+ " notice: " +:+ Error e])
          | Some e, None =>
              (* notice.Type() on the nil Notice *)
              Panicked nil_dereference (handled ++ [notice])
          end
      | FromSignals :: received =>
          loop received (cancel ctx) s handled
            (printed ++ ["received signal, shutting down"])
      end
  end.

(** The dispatch loop as [main] enters it: [ctx] comes from
    [context.WithCancel(context.Background())] through
    [errgroup.WithContext], and nothing has canceled it. *)
Definition dispatch (received : list Received) (s : S) : Loop S :=
  let ctx := context_WithCancel context_Background in
  loop received ctx s [] [].

Definition handled_by (l : Loop S) : list (option Notice) :=
  match l with
  | LoopOver _ _ handled _ => handled
  | Waiting _ _ handled _ => handled
  | Panicked _ handled => handled
  end.

End Dispatch.

(** The program while [main] is in [group.Wait()]: the context of the
    group, the client, the listeners that were started with their
    variables, and whether an interrupt is waiting in the signals channel
    (its buffer holds one). *)
Record Program (C : Type) := {
  program_ctx : Context;
  program_client : C;
  listeners : list (Listener * Listening C);
  signals : bool
}.
Arguments program_ctx {C} _.
Arguments program_client {C} _.
Arguments listeners {C} _.
Arguments signals {C} _.

(** How [main] stands. *)
Inductive Main (C : Type) :=
| Fatal (msg : string)            (* log.Fatalf *)
| Crashed (msg : string)          (* a panic *)
| Dispatching (l : Loop C)        (* in the dispatch loop *)
| InWait (p : Program C).         (* in group.Wait() *)
Arguments Fatal {C} _.
Arguments Crashed {C} _.
Arguments Dispatching {C} _.
Arguments InWait {C} _.

(** What happens while [main] waits: an interrupt arrives, or the listener
    at an index takes a case of its select. *)
Inductive Happens :=
| Interrupt
| Selects (i : nat) (selected : Selected).

Section Program.
Context {C : Type} `{AWSClient C}.
Variable Handle : Context -> option Notice -> C -> option error * C.

(** [main] from its first line to [group.Wait()]: queue discovery, the
    listeners, the group, the dispatch loop. *)
Definition main_start (spotInterval : Duration) (received : list Received)
    (client0 : C) : Main C :=
  match GetLifecycleNoticeQueues context_Background client0 with
  | Panics msg => Crashed msg
  | Returns ((_, Some e), _) =>
      Fatal ("failed to get lifecycle hooks: " +:+ Error e)
  | Returns ((queues, None), client) =>
      let listeners :=
        NewSpotListener spotInterval :: map NewLifecycleListener queues in
      match dispatch Handle received client with
      | LoopOver ctx client _ _ =>
          InWait {| program_ctx := ctx; program_client := client;
                    listeners :=
                      map (fun listener => (listener, listening client))
                          listeners;
                    signals := false |}
      | l => Dispatching l
      end
  end.

(** Whether the case can be taken while [main] waits: [ctx.Done()] once
    the context is done; a send never, nothing receives from the notices
    channel outside the dispatch loop; a tick or the default case always. *)
Definition can_take (p : Program C) (selected : Selected) : bool :=
  match selected with
  | OfSpot SpotDone | OfLifecycle LifecycleDone => ctx_Done (program_ctx p)
  | OfSpot SpotSendAccepted | OfLifecycle LifecycleSendAccepted => false
  | OfSpot SpotTick | OfLifecycle LifecycleDefault => true
  end.

Definition Program_step (h : Happens) (p : Program C) : Program C :=
  match h with
  | Interrupt =>
      {| program_ctx := program_ctx p; program_client := program_client p;
         listeners := listeners p; signals := true |}
  | Selects i selected =>
      match listeners p !! i with
      | Some (listener, s) =>
          if can_take p selected then
            let s' :=
              Listener_iteration (program_ctx p) listener selected
                (with_client s (program_client p)) in
            {| program_ctx := program_ctx p;
               program_client := listener_client s';
               listeners := <[i := (listener, s')]> (listeners p);
               signals := signals p |}
          else p
      | None => p
      end
  end.

Definition Program_run (happens : list Happens) (p : Program C) : Program C :=
  fold_left (fun p h => Program_step h p) happens p.

(** [group.Wait()] returns once every listener has returned. *)
Definition Wait_returns (p : Program C) : bool :=
  forallb (fun ls => match returned (snd ls) with Some _ => true | None => false end)
          (listeners p).

(** What holds of the program while [main] waits. *)
Definition Program_inv (p : Program C) : Prop :=
  ctx_Done (program_ctx p) = false /\
  listeners p <> [] /\
  Forall (fun ls => returned (snd ls) = None /\ sent (snd ls) = [])
         (listeners p).

End Program.

End cmd.

(** ** A scripted instance

    One instance, [i-0aaa], in the group [web-asg], with one launch hook
    that notifies the queue [hooks]; used to run the definitions. *)

Module scenario.
Import golang lcmgr.

Definition target : string := "arn:aws:sqs:us-east-1:123456789012:hooks".

(** 2024-01-01T00:05:00Z *)
Definition deadline : Time := 1704067500%Z.

Definition lib : Library := {|
  arn_Parse := fun s =>
    if String.eqb s target then
      ({| arn.Partition := "aws"; arn.Service := "sqs";
          arn.Region := "us-east-1"; arn.AccountID := "123456789012";
          arn.Resource := "hooks" |}, None)
    else
      ({| arn.Partition := ""; arn.Service := ""; arn.Region := "";
          arn.AccountID := ""; arn.Resource := "" |},
       Some (errors_New "arn: invalid prefix"));
  json_Unmarshal := fun body =>
    if String.eqb body "launch for i-0aaa" then
      Some {| EC2InstanceID := "i-0aaa"; msg_LifecycleHookName := "launch-hook";
              msg_LifecycleActionToken := "tok-1";
              LifecycleTransition := LaunchLifecycleAction |}
    else if String.eqb body "termination for i-0aaa" then
      Some {| EC2InstanceID := "i-0aaa"; msg_LifecycleHookName := "term-hook";
              msg_LifecycleActionToken := "tok-2";
              LifecycleTransition := TerminationLifecycleAction |}
    else if String.eqb body "test for i-0aaa" then
      Some {| EC2InstanceID := "i-0aaa"; msg_LifecycleHookName := "launch-hook";
              msg_LifecycleActionToken := "tok-3";
              LifecycleTransition := "autoscaling:TEST_NOTIFICATION" |}
    else if String.eqb body "launch for i-0bbb" then
      Some {| EC2InstanceID := "i-0bbb"; msg_LifecycleHookName := "launch-hook";
              msg_LifecycleActionToken := "tok-4";
              LifecycleTransition := LaunchLifecycleAction |}
    else None;
  time_Parse := fun s =>
    if String.eqb s "2024-01-01T00:05:00Z" then (deadline, None)
    else (0%Z, Some (errors_New "parsing time: cannot parse"))
|}.

(** EC2 metadata, with the termination time once the spot instance is
    reclaimed; until then the path answers 404. *)
Definition metadata (reclaimed : option string) : ec2metadata.EC2Metadata := {|
  ec2metadata.Available := true;
  ec2metadata.GetMetadata := fun path =>
    if String.eqb path "instance-id" then ("i-0aaa", None)
    else
      match reclaimed with
      | Some t => (t, None)
      | None =>
          ("", Some (awserr_New "EC2MetadataError"
                       "failed to make EC2Metadata request"
                       (errors_New "status code: 404")))
      end
|}.


Definition topic : string := "arn:aws:sns:us-east-1:123456789012:hooks".

(** The library with [arn.Parse] knowing the topic as well. *)
Definition lib_with_topic : Library := {|
  arn_Parse := fun s =>
    if String.eqb s topic then
      ({| arn.Partition := "aws"; arn.Service := "sns";
          arn.Region := "us-east-1"; arn.AccountID := "123456789012";
          arn.Resource := "hooks" |}, None)
    else arn_Parse lib s;
  json_Unmarshal := json_Unmarshal lib;
  time_Parse := time_Parse lib
|}.

(** Auto Scaling of a group whose only hook notifies the topic. *)
Definition scaling_with_topic : autoscaling.AutoScaling := {|
  autoscaling.DescribeAutoScalingInstancesWithContext := fun _ _ =>
    ([{| autoscaling.GroupName := "web-asg" |}], None);
  autoscaling.DescribeLifecycleHooksWithContext := fun _ _ =>
    ([{| autoscaling.NotificationTargetARN := Some topic;
         autoscaling.LifecycleTransition := Some LaunchLifecycleAction |}],
     None);
  autoscaling.RecordLifecycleActionHeartbeat := fun _ => None;
  autoscaling.CompleteLifecycleAction := fun _ => None
|}.

(** Auto Scaling, with the answer that [CompleteLifecycleAction] gets. *)
Definition scaling (complete : option error) : autoscaling.AutoScaling := {|
  autoscaling.DescribeAutoScalingInstancesWithContext := fun _ _ =>
    ([{| autoscaling.GroupName := "web-asg" |}], None);
  autoscaling.DescribeLifecycleHooksWithContext := fun _ _ =>
    ([{| autoscaling.NotificationTargetARN := Some target;
         autoscaling.LifecycleTransition := Some LaunchLifecycleAction |}],
     None);
  autoscaling.RecordLifecycleActionHeartbeat := fun _ => None;
  autoscaling.CompleteLifecycleAction := fun _ => complete
|}.

(** SQS, with the batch that [ReceiveMessage] returns and the answer that
    [DeleteMessage] gets. *)
Definition queue_service (batch : list sqs.Message) (delete : option error)
  : sqs.SQS := {|
  sqs.GetQueueUrlWithContext := fun _ _ =>
    ("https://sqs.us-east-1.amazonaws.com/123456789012/hooks", None);
  sqs.ReceiveMessageWithContext := fun _ _ => (batch, None);
  sqs.DeleteMessageWithContext := fun _ _ => delete
|}.

Definition new_client (complete : option error) (batch : list sqs.Message)
    (delete : option error) : awsClient := {|
  AutoScaling := scaling complete;
  EC2Metadata := metadata None;
  SQS := queue_service batch delete;
  AutoScalingGroupName := "";
  InstanceID := "";
  Requests := []
|}.

(** The client once it knows the instance and its group. *)
Definition running_client (complete : option error) : awsClient := {|
  AutoScaling := scaling complete;
  EC2Metadata := metadata None;
  SQS := queue_service [] None;
  AutoScalingGroupName := "web-asg";
  InstanceID := "i-0aaa";
  Requests := []
|}.

(** The client of an instance whose group notifies a topic. *)
Definition topic_client : awsClient := {|
  AutoScaling := scaling_with_topic;
  EC2Metadata := metadata None;
  SQS := queue_service [] None;
  AutoScalingGroupName := "";
  InstanceID := "";
  Requests := []
|}.

(** The client in service: it knows the instance and its group, and its
    queue holds a batch. *)
Definition serving_client (batch : list sqs.Message) : awsClient := {|
  AutoScaling := scaling None;
  EC2Metadata := metadata None;
  SQS := queue_service batch None;
  AutoScalingGroupName := "web-asg";
  InstanceID := "i-0aaa";
  Requests := []
|}.

(** The client of a spot instance that is being reclaimed. *)
Definition reclaimed_client : awsClient := {|
  AutoScaling := scaling None;
  EC2Metadata := metadata (Some "2024-01-01T00:05:00Z");
  SQS := queue_service [] None;
  AutoScalingGroupName := "";
  InstanceID := "";
  Requests := []
|}.

(** A client that answers its polls from a script, one result per poll. *)
#[global] Instance scripted : AWSClient (list (option Notice)) := {
  GetInstanceID := fun script => (("i-0aaa", None), script);
  GetAutoScalingGroupName := fun _ script => (("web-asg", None), script);
  GetLifecycleNoticeQueues := fun _ script => Returns (([], None), script);
  GetSpotNotice := fun script => ((mjoin (head script), None), tail script);
  GetLifecycleNotice := fun _ _ script =>
    ((mjoin (head script), None), tail script);
  SendHeartbeat := fun _ _ script => (None, script);
  CompleteLifecycleAction := fun _ _ script => (None, script)
}.

Definition hooks : Queue := {|
  Action := LaunchLifecycleAction;
  Name := "hooks";
  URL := "https://sqs.us-east-1.amazonaws.com/123456789012/hooks"
|}.

Definition web : ServiceHandler :=
  {| Service := "web.service"; HeartbeatInterval := 60000000000%Z |}.

(** systemd, with the job id and the job result of a start or stop. *)
Definition systemd (job : Z) (job_result : string) : dbus.Conn := {|
  dbus.New := None;
  dbus.ListUnitsByNames := fun names =>
    ([{| dbus.Name := "web.service"; dbus.ActiveState := "inactive" |}], None);
  dbus.StartUnit := fun _ _ => (job, None);
  dbus.StartUnit_result := job_result;
  dbus.StopUnit := fun _ _ => (job, None);
  dbus.StopUnit_result := job_result
|}.

Definition launch : Notice := NewLaunchNotice "launch-hook" "tok-1".

(** Four messages on the queue: a launch and a termination of this
    instance, a message for this instance with another transition, and a
    launch of another instance. *)
Definition launch_message : sqs.Message :=
  {| sqs.Body := "launch for i-0aaa"; sqs.ReceiptHandle := "rh-1" |}.
Definition termination_message : sqs.Message :=
  {| sqs.Body := "termination for i-0aaa"; sqs.ReceiptHandle := "rh-2" |}.
Definition test_message : sqs.Message :=
  {| sqs.Body := "test for i-0aaa"; sqs.ReceiptHandle := "rh-3" |}.
Definition other_message : sqs.Message :=
  {| sqs.Body := "launch for i-0bbb"; sqs.ReceiptHandle := "rh-4" |}.

Definition access_denied : error := errors_New "AccessDenied".

End scenario.

(** * Properties *)

Import golang lcmgr.

(** ** The dispatch loop *)

Section DispatchLoop.
Context {S : Type}.
Variable Handle : Context -> option Notice -> S -> option error * S.

(** C1 (fails on the code).  The loop in [main] is guarded by
    [ctx.Err() != nil], and the context is fresh when the loop is reached, so
    the guard is false at once: whatever becomes available on the notices
    channel or the signals channel, the loop is over without a single
    receive and without a single call of Handle. *)
Theorem dispatch_never_handles (received : list cmd.Received) (s : S) :
  cmd.dispatch Handle received s
    = cmd.LoopOver context_Background s [] [] /\
  cmd.handled_by (cmd.dispatch Handle received s) = [].
Proof.
  unfold cmd.dispatch. destruct received; simpl; auto.
Qed.

(** Had the context been canceled on entry, the loop would run, and a
    signal would not end it: the guard stays true after [cancel()]. *)
Lemma loop_runs_only_when_canceled (received : list cmd.Received)
    (ctx : Context) (s : S) e handled printed :
  ctx_Err ctx = Some e ->
  forall ctx' s' handled' printed',
    cmd.loop Handle received ctx s handled printed
      <> cmd.LoopOver ctx' s' handled' printed'.
Proof.
  revert ctx s e handled printed.
  induction received as [|r received IH];
    intros ctx s e handled printed Hctx ctx' s' handled' printed'.
  - simpl. rewrite Hctx. discriminate.
  - simpl. rewrite Hctx. destruct r as [notice|].
    + destruct (Handle ctx notice s) as [err s''].
      destruct err as [e'|]; [destruct notice as [n|]|].
      * eapply IH; eauto.
      * discriminate.
      * eapply IH; eauto.
    + eapply (IH (cancel ctx)). unfold cancel. rewrite Hctx. eauto.
Qed.

End DispatchLoop.

(** ** Starting and stopping the service *)

(** C5 (fails on the code).  When the start or stop job reports a result
    other than done, or no job was created, the error is built by
    [fmt.Errorf] and dropped: both actions return nil. *)
Theorem start_stop_failure_discarded :
  let notice := scenario.launch in
  WaitForServiceStart scenario.web (scenario.systemd 7 "failed") notice
    = ([StartUnit "web.service" "fail"], None) /\
  WaitForServiceStop scenario.web (scenario.systemd 7 "failed") notice
    = ([StopUnit "web.service" "fail"], None) /\
  WaitForServiceStart scenario.web (scenario.systemd 0 "done") notice
    = ([StartUnit "web.service" "fail"], None) /\
  WaitForServiceStop scenario.web (scenario.systemd 0 "done") notice
    = ([StopUnit "web.service" "fail"], None).
Proof. repeat split; reflexivity. Qed.

(** In general: once the unit is listed and the job request is accepted,
    neither the job id nor the job result reaches the caller. *)
Lemma WaitForServiceStart_ignores_job (handler : ServiceHandler)
    (conn : dbus.Conn) (notice : Notice) unit n :
  dbus.New conn = None ->
  dbus.ListUnitsByNames conn [Service handler] = ([unit], None) ->
  dbus.StartUnit conn (Service handler) "fail" = (n, None) ->
  WaitForServiceStart handler conn notice
    = ([StartUnit (Service handler) "fail"], None).
Proof.
  intros Hnew Hlist Hstart. unfold WaitForServiceStart.
  rewrite Hnew, Hlist. simpl. rewrite Hstart.
  destruct (n =? 0)%Z, (negb (String.eqb (dbus.StartUnit_result conn) "done"));
    reflexivity.
Qed.

Lemma WaitForServiceStop_ignores_job (handler : ServiceHandler)
    (conn : dbus.Conn) (notice : Notice) unit n :
  dbus.New conn = None ->
  dbus.ListUnitsByNames conn [Service handler] = ([unit], None) ->
  dbus.StopUnit conn (Service handler) "fail" = (n, None) ->
  WaitForServiceStop handler conn notice
    = ([StopUnit (Service handler) "fail"], None).
Proof.
  intros Hnew Hlist Hstop. unfold WaitForServiceStop.
  rewrite Hnew, Hlist. simpl. rewrite Hstop.
  destruct (n =? 0)%Z, (negb (String.eqb (dbus.StopUnit_result conn) "done"));
    reflexivity.
Qed.

(** The actions only ever talk to systemd. *)
Lemma WaitForServiceStart_events handler conn notice :
  Forall systemd_event (fst (WaitForServiceStart handler conn notice)).
Proof.
  unfold WaitForServiceStart.
  destruct (dbus.New conn); simpl; [constructor|].
  destruct (dbus.ListUnitsByNames conn [Service handler]) as [units [e|]];
    simpl; [constructor|].
  destruct (negb (length units =? 1)); simpl; [constructor|].
  destruct (dbus.StartUnit conn (Service handler) "fail") as [n [e|]];
    simpl; [repeat constructor|].
  destruct (n =? 0)%Z, (negb (String.eqb (dbus.StartUnit_result conn) "done"));
    simpl; repeat constructor.
Qed.

Lemma WaitForServiceStop_events handler conn notice :
  Forall systemd_event (fst (WaitForServiceStop handler conn notice)).
Proof.
  unfold WaitForServiceStop.
  destruct (dbus.New conn); simpl; [constructor|].
  destruct (dbus.ListUnitsByNames conn [Service handler]) as [units [e|]];
    simpl; [constructor|].
  destruct (negb (length units =? 1)); simpl; [constructor|].
  destruct (dbus.StopUnit conn (Service handler) "fail") as [n [e|]];
    simpl; [repeat constructor|].
  destruct (n =? 0)%Z, (negb (String.eqb (dbus.StopUnit_result conn) "done"));
    simpl; repeat constructor.
Qed.

(** ** Queue discovery *)

(** The map of [GetLifecycleNoticeQueues] is nil when the loop starts, and
    a nil map is never replaced by the loop: a hook is skipped, ends the
    call with an error, or panics. *)
Lemma discover_nil_map lib ctx client hooks r :
  discover lib ctx client hooks None = Returns r ->
  r = inl None \/ exists e, r = inr e.
Proof.
  induction hooks as [|hook hooks IH]; simpl; intros Hr.
  - left. inversion Hr. reflexivity.
  - destruct (autoscaling.NotificationTargetARN hook) as [target|];
      [|discriminate].
    destruct (arn_Parse lib target) as [parsed [e|]].
    + right. exists e. inversion Hr. reflexivity.
    + destruct (negb (String.eqb (arn.Service parsed) "sqs")); [auto|].
      destruct (sqs.GetQueueUrlWithContext (SQS client) ctx _) as [url [e|]].
      * right. exists e. inversion Hr. reflexivity.
      * destruct (autoscaling.LifecycleTransition hook); discriminate.
Qed.

Lemma GetLifecycleNoticeQueues_never_lists lib ctx client queues err client' :
  awsClient_GetLifecycleNoticeQueues lib ctx client
    = Returns ((queues, err), client') ->
  queues = [].
Proof.
  unfold awsClient_GetLifecycleNoticeQueues.
  destruct (awsClient_GetAutoScalingGroupName ctx client) as [[name [e|]] c1].
  { intros Heq. inversion Heq. reflexivity. }
  destruct (autoscaling.DescribeLifecycleHooksWithContext _ ctx name)
    as [output [e|]].
  { intros Heq. inversion Heq. reflexivity. }
  destruct (discover lib ctx c1 output None) as [r|msg] eqn:Hd; [|discriminate].
  apply discover_nil_map in Hd. destruct Hd as [->|[e ->]]; simpl;
    intros Heq; inversion Heq; reflexivity.
Qed.

(** C8 (fails on the code).  The map is declared and never made: with one
    hook that notifies an SQS queue whose URL is found, the first write is a
    write to the nil map and the call panics; no list is returned. *)
Theorem queue_discovery_writes_nil_map :
  awsClient_GetLifecycleNoticeQueues scenario.lib context_Background
    (scenario.new_client None [] None)
  = Panics "assignment to entry in nil map".
Proof. vm_compute. reflexivity. Qed.

(** ** Handling a Spot-Termination Notice *)

Section SpotHandling.
Context {C : Type} `{AWSClient C}.

(** C9.  On a Spot-Termination Notice, Handle is the stop-service action:
    it returns what [WaitForServiceStop] returns, its only events are that
    action's calls to systemd, so no heartbeat and no completion is sent,
    no heartbeat task exists, and the client is not used. *)
Theorem Handle_spot (handler : ServiceHandler) (conn : dbus.Conn)
    (ctx0 : Context) (deadline : Time) (schedule : list Choice) (client0 : C) :
  let notice := SpotNotice deadline in
  let s := Handle handler conn ctx0 (Some notice) schedule client0 in
  result s = Some (snd (WaitForServiceStop handler conn notice)) /\
  trace s = fst (WaitForServiceStop handler conn notice) /\
  (forall n, Heartbeat n ∉ trace s) /\
  (forall n, Complete n ∉ trace s) /\
  heartbeat_pc s = NotSpawned /\
  client s = client0.
Proof.
  simpl. repeat split.
  - intros n Hin.
    pose proof (WaitForServiceStop_events handler conn (SpotNotice deadline)) as Hev.
    rewrite Forall_forall in Hev. apply Hev in Hin. exact Hin.
  - intros n Hin.
    pose proof (WaitForServiceStop_events handler conn (SpotNotice deadline)) as Hev.
    rewrite Forall_forall in Hev. apply Hev in Hin. exact Hin.
Qed.

End SpotHandling.

(** ** Fetching from a lifecycle queue *)

Section QueueSource.
Variable lib : Library.
Variable ctx : Context.
Variable queue : Queue.
Variable instanceID : string.

(** A batch holds no message for this instance, or splits at the first one. *)
Lemma first_addressed (messages : list sqs.Message) :
  not_addressed lib instanceID messages \/
  exists skipped message rest m,
    messages = skipped ++ message :: rest /\
    not_addressed lib instanceID skipped /\
    addressed_to lib instanceID message = Some m.
Proof.
  unfold not_addressed.
  induction messages as [|message messages IH].
  - left. constructor.
  - destruct (addressed_to lib instanceID message) as [m|] eqn:Hm.
    + right. exists [], message, messages, m.
      split; [reflexivity|]. split; [constructor|exact Hm].
    + destruct IH as [IH|(skipped & message' & rest & m & -> & Hs & Hm')].
      * left. constructor; auto.
      * right. exists (message :: skipped), message', rest, m.
        split; [reflexivity|]. split; [constructor; auto|exact Hm'].
Qed.

Lemma receive_skips skipped messages client :
  not_addressed lib instanceID skipped ->
  receive lib ctx queue instanceID (skipped ++ messages) client
    = receive lib ctx queue instanceID messages client.
Proof.
  induction 1 as [|message skipped Hm _ IH]; simpl; [reflexivity|].
  unfold addressed_to in Hm.
  destruct (json_Unmarshal lib (sqs.Body message)) as [m|]; [|exact IH].
  destruct (String.eqb (EC2InstanceID m) instanceID); [discriminate|exact IH].
Qed.

Lemma receive_nothing messages client :
  not_addressed lib instanceID messages ->
  receive lib ctx queue instanceID messages client = ((None, None), client).
Proof.
  intros Hs. rewrite <- (app_nil_r messages).
  rewrite receive_skips by exact Hs. reflexivity.
Qed.

Lemma receive_first message rest m client :
  addressed_to lib instanceID message = Some m ->
  receive lib ctx queue instanceID (message :: rest) client
    = (match sqs.DeleteMessageWithContext (SQS client) ctx
               (delete_input queue message) with
       | Some e => (None, Some e)
       | None => (switch_LifecycleTransition m, None)
       end,
       issue client (ReqDeleteMessage (delete_input queue message))).
Proof.
  intros Hm. simpl. unfold addressed_to in Hm.
  destruct (json_Unmarshal lib (sqs.Body message)) as [m'|]; [|discriminate].
  destruct (String.eqb (EC2InstanceID m') instanceID); [|discriminate].
  injection Hm as ->. simpl.
  destruct (sqs.DeleteMessageWithContext _ _ _); reflexivity.
Qed.

Lemma GetLifecycleNotice_receive client client1 messages :
  awsClient_GetInstanceID client = ((instanceID, None), client1) ->
  sqs.ReceiveMessageWithContext (SQS client1) ctx (receive_input queue)
    = (messages, None) ->
  awsClient_GetLifecycleNotice lib ctx queue client
    = receive lib ctx queue instanceID messages client1.
Proof.
  intros Hid Hrecv. unfold awsClient_GetLifecycleNotice.
  rewrite Hid. rewrite Hrecv. reflexivity.
Qed.

(** C6 (as amended).  A call of GetLifecycleNotice that fetched [messages]
    for the instance [instanceID] either finds no message addressed to this
    instance, and then issues no request and returns no Notice; or it stops
    at the first message addressed to this instance, issues one delete
    request, for that message, and returns the Notice of its transition if
    the delete succeeded and the delete's error with no Notice otherwise.
    Messages for other instances, and every message after the first match,
    get no delete request and no Notice from the call. *)
Theorem GetLifecycleNotice_filters client client1 messages :
  awsClient_GetInstanceID client = ((instanceID, None), client1) ->
  sqs.ReceiveMessageWithContext (SQS client1) ctx (receive_input queue)
    = (messages, None) ->
  let '((notice, err), client') :=
    awsClient_GetLifecycleNotice lib ctx queue client in
  (not_addressed lib instanceID messages /\
   notice = None /\ err = None /\ Requests client' = Requests client1)
  \/
  (exists skipped message rest m,
     messages = skipped ++ message :: rest /\
     not_addressed lib instanceID skipped /\
     addressed_to lib instanceID message = Some m /\
     Requests client'
       = Requests client1 ++ [ReqDeleteMessage (delete_input queue message)] /\
     match sqs.DeleteMessageWithContext (SQS client1) ctx
             (delete_input queue message) with
     | None => notice = switch_LifecycleTransition m /\ err = None
     | Some e => notice = None /\ err = Some e
     end).
Proof.
  intros Hid Hrecv.
  rewrite (GetLifecycleNotice_receive _ _ _ Hid Hrecv).
  destruct (first_addressed messages)
    as [Hnone|(skipped & message & rest & m & -> & Hs & Hm)].
  - rewrite receive_nothing by exact Hnone. left. auto.
  - rewrite receive_skips by exact Hs. rewrite (receive_first _ _ _ _ Hm).
    destruct (sqs.DeleteMessageWithContext _ _ _) as [e|] eqn:Hdel;
      right; exists skipped, message, rest, m; rewrite Hdel; simpl; auto 10.
Qed.

(** C10 (as amended).  When the first fetched message addressed to this
    instance has a transition that is neither the launch nor the
    termination constant, GetLifecycleNotice issues the delete request for
    it and returns a nil Notice together with whatever the delete returned:
    no error when the message was deleted, the delete's error when it was
    not. *)
Theorem unknown_transition_consumed client client1 skipped message rest m :
  awsClient_GetInstanceID client = ((instanceID, None), client1) ->
  sqs.ReceiveMessageWithContext (SQS client1) ctx (receive_input queue)
    = (skipped ++ message :: rest, None) ->
  not_addressed lib instanceID skipped ->
  addressed_to lib instanceID message = Some m ->
  LifecycleTransition m <> LaunchLifecycleAction ->
  LifecycleTransition m <> TerminationLifecycleAction ->
  awsClient_GetLifecycleNotice lib ctx queue client
    = ((None,
        sqs.DeleteMessageWithContext (SQS client1) ctx
          (delete_input queue message)),
       issue client1 (ReqDeleteMessage (delete_input queue message))).
Proof.
  intros Hid Hrecv Hs Hm Hl Ht.
  rewrite (GetLifecycleNotice_receive _ _ _ Hid Hrecv).
  rewrite receive_skips by exact Hs. rewrite (receive_first _ _ _ _ Hm).
  unfold switch_LifecycleTransition.
  apply String.eqb_neq in Hl, Ht. rewrite Hl, Ht.
  destruct (sqs.DeleteMessageWithContext _ _ _); reflexivity.
Qed.

End QueueSource.

(** The instance filter at work: the message of the other instance is
    passed over, the launch of this instance is deleted and returned. *)
Lemma GetLifecycleNotice_filters_witness :
  let client :=
    scenario.new_client None
      [scenario.other_message; scenario.launch_message] None in
  let '((notice, err), client') :=
    awsClient_GetLifecycleNotice scenario.lib context_Background
      scenario.hooks client in
  (not_addressed scenario.lib "i-0aaa"
     [scenario.other_message; scenario.launch_message] /\
   notice = None /\ err = None /\
   Requests client' = Requests (set_InstanceID client "i-0aaa"))
  \/
  (exists skipped message rest m,
     [scenario.other_message; scenario.launch_message]
       = skipped ++ message :: rest /\
     not_addressed scenario.lib "i-0aaa" skipped /\
     addressed_to scenario.lib "i-0aaa" message = Some m /\
     Requests client'
       = Requests (set_InstanceID client "i-0aaa")
         ++ [ReqDeleteMessage (delete_input scenario.hooks message)] /\
     match sqs.DeleteMessageWithContext
             (SQS (set_InstanceID client "i-0aaa")) context_Background
             (delete_input scenario.hooks message) with
     | None => notice = switch_LifecycleTransition m /\ err = None
     | Some e => notice = None /\ err = Some e
     end).
Proof.
  exact (GetLifecycleNotice_filters scenario.lib context_Background
           scenario.hooks "i-0aaa"
           (scenario.new_client None
              [scenario.other_message; scenario.launch_message] None)
           _ _ eq_refl eq_refl).
Defined.

(** C6 as stated fails for messages that match.  Two messages of this
    instance are fetched in one batch.  The first has a transition that is
    neither launch nor termination: it is deleted and no Notice is emitted
    for it.  The second is a termination of this instance: the call has
    returned before reaching it, so it is neither deleted nor turned into a
    Notice. *)
Lemma matching_messages_without_notice :
  let batch := [scenario.test_message; scenario.termination_message] in
  let client := scenario.new_client None batch None in
  let r :=
    awsClient_GetLifecycleNotice scenario.lib context_Background
      scenario.hooks client in
  (addressed_to scenario.lib "i-0aaa" scenario.test_message
     = Some {| EC2InstanceID := "i-0aaa";
               msg_LifecycleHookName := "launch-hook";
               msg_LifecycleActionToken := "tok-3";
               LifecycleTransition := "autoscaling:TEST_NOTIFICATION" |} /\
   addressed_to scenario.lib "i-0aaa" scenario.termination_message
     = Some {| EC2InstanceID := "i-0aaa"; msg_LifecycleHookName := "term-hook";
               msg_LifecycleActionToken := "tok-2";
               LifecycleTransition := TerminationLifecycleAction |}) /\
  r = ((None, None),
       issue (set_InstanceID client "i-0aaa")
         (ReqDeleteMessage
            (delete_input scenario.hooks scenario.test_message))) /\
  (ReqDeleteMessage (delete_input scenario.hooks scenario.termination_message)
     ∉ Requests (snd r)).
Proof.
  cbv zeta. split; [split; reflexivity|]. split.
  - reflexivity.
  - intros Hin. apply list_elem_of_In in Hin. simpl in Hin.
    destruct Hin as [Heq|[]]. discriminate Heq.
Qed.

(** The message with an unknown transition, alone in its batch, is
    deleted and no Notice comes of it. *)
Lemma unknown_transition_consumed_witness :
  awsClient_GetLifecycleNotice scenario.lib context_Background scenario.hooks
    (scenario.new_client None
       [scenario.other_message; scenario.test_message] None)
  = ((None, None),
     issue (set_InstanceID
              (scenario.new_client None
                 [scenario.other_message; scenario.test_message] None)
              "i-0aaa")
       (ReqDeleteMessage (delete_input scenario.hooks scenario.test_message))).
Proof.
  apply (unknown_transition_consumed scenario.lib context_Background
           scenario.hooks "i-0aaa"
           (scenario.new_client None
              [scenario.other_message; scenario.test_message] None)
           (set_InstanceID
              (scenario.new_client None
                 [scenario.other_message; scenario.test_message] None)
              "i-0aaa")
           [scenario.other_message]
           scenario.test_message []
           {| EC2InstanceID := "i-0aaa"; msg_LifecycleHookName := "launch-hook";
              msg_LifecycleActionToken := "tok-3";
              LifecycleTransition := "autoscaling:TEST_NOTIFICATION" |}).
  - reflexivity.
  - reflexivity.
  - repeat constructor.
  - reflexivity.
  - discriminate.
  - discriminate.
Defined.

(** C10 as stated fails twice.  When the delete request fails, the call
    returns the error and the message stays on the queue; and a message
    with an unknown transition that comes second among the messages of
    this instance is not touched by the call, which returns the Notice of
    the first. *)
Lemma unknown_transition_not_always_consumed :
  (let client :=
     scenario.new_client None [scenario.test_message]
       (Some scenario.access_denied) in
   sqs.DeleteMessageWithContext (SQS client) context_Background
     (delete_input scenario.hooks scenario.test_message)
     = Some scenario.access_denied /\
   fst (awsClient_GetLifecycleNotice scenario.lib context_Background
          scenario.hooks client)
     = (None, Some scenario.access_denied)) /\
  (let batch := [scenario.launch_message; scenario.test_message] in
   let client := scenario.new_client None batch None in
   let r :=
     awsClient_GetLifecycleNotice scenario.lib context_Background
       scenario.hooks client in
   scenario.test_message ∈ batch /\
   fst r = (Some (NewLaunchNotice "launch-hook" "tok-1"), None) /\
   (ReqDeleteMessage (delete_input scenario.hooks scenario.test_message)
      ∉ Requests (snd r))).
Proof.
  cbv zeta. split; [split; reflexivity|]. split; [|split].
  - apply list_elem_of_In. simpl. auto.
  - reflexivity.
  - intros Hin. apply list_elem_of_In in Hin. simpl in Hin.
    destruct Hin as [Heq|[]]. discriminate Heq.
Qed.

(** ** The pending-notice slot of a listener *)

Lemma latest_snoc polls v : latest (polls ++ [v]) = v.
Proof. unfold latest. rewrite last_snoc. reflexivity. Qed.

Lemma latest_elem polls : polls <> [] -> latest polls ∈ polls.
Proof.
  destruct polls as [|v polls _] using rev_ind; [congruence|].
  intros _. rewrite latest_snoc. apply elem_of_app. right. constructor.
Qed.


Section Slot.
Context {C : Type} `{AWSClient C}.

Lemma slot_inv_listening (client0 : C) : slot_inv (listening client0).
Proof. repeat split; simpl; [discriminate|constructor]. Qed.

Lemma extends_refl (s : Listening C) : slot_inv s -> extends s s.
Proof. intros Hs. split; [exact Hs|]. exists []. symmetry. apply app_nil_r. Qed.

Lemma slot_inv_send (s : Listening C) :
  slot_inv s -> arm s = true ->
  extends s
    {| notice := notice s; notices := false;
       listener_client := listener_client s; sent := sent s ++ [notice s];
       polled := polled s; logged := logged s; returned := None |}.
Proof.
  intros (Hn & Ha & Hs) Harm. split.
  - split; [|split]; simpl.
    + exact Hn.
    + intros _. exact (Ha Harm).
    + apply Forall_app. split; [exact Hs|]. constructor; [|constructor].
      rewrite Hn. apply latest_elem. exact (Ha Harm).
  - exists []. simpl. symmetry. apply app_nil_r.
Qed.

Lemma slot_inv_poll (s : Listening C) notice' client' logged' :
  slot_inv s ->
  extends s
    {| notice := notice'; notices := arm s;
       listener_client := client'; sent := sent s;
       polled := polled s ++ [notice']; logged := logged';
       returned := None |}.
Proof.
  intros (Hn & Ha & Hs). split.
  - split; [|split]; simpl.
    + symmetry. apply latest_snoc.
    + intros _ Hnil. apply app_eq_nil in Hnil. destruct Hnil. discriminate.
    + eapply Forall_impl; [exact Hs|]. intros v Hv.
      apply elem_of_app. left. exact Hv.
  - exists [notice']. reflexivity.
Qed.

Lemma slot_inv_done (s : Listening C) :
  slot_inv s ->
  extends s
    {| notice := notice s; notices := arm s;
       listener_client := listener_client s; sent := sent s;
       polled := polled s; logged := logged s; returned := Some None |}.
Proof.
  intros (Hn & Ha & Hs). split.
  - split; [|split]; simpl.
    + exact Hn.
    + intros Harm. apply Ha. unfold arm in *. simpl in Harm.
      destruct (notice s); [reflexivity|exact Harm].
    + exact Hs.
  - exists []. simpl. symmetry. apply app_nil_r.
Qed.

Lemma SpotListener_iteration_extends selected (s : Listening C) :
  slot_inv s -> extends s (SpotListener_iteration selected s).
Proof.
  intros Hs. unfold SpotListener_iteration.
  destruct (returned s); [apply extends_refl; exact Hs|].
  destruct selected.
  - destruct (arm s) eqn:Harm; [|apply extends_refl; exact Hs].
    apply slot_inv_send; assumption.
  - destruct (GetSpotNotice (listener_client s)) as [[notice' err] client'].
    apply slot_inv_poll. exact Hs.
  - apply slot_inv_done. exact Hs.
Qed.

Lemma LifecycleListener_iteration_extends ctx0 queue selected
    (s : Listening C) :
  slot_inv s -> extends s (LifecycleListener_iteration ctx0 queue selected s).
Proof.
  intros Hs. unfold LifecycleListener_iteration.
  destruct (returned s); [apply extends_refl; exact Hs|].
  destruct selected.
  - destruct (arm s) eqn:Harm; [|apply extends_refl; exact Hs].
    apply slot_inv_send; assumption.
  - apply slot_inv_done. exact Hs.
  - destruct (GetLifecycleNotice ctx0 queue (listener_client s))
      as [[notice' err] client'].
    apply slot_inv_poll. exact Hs.
Qed.

(** Any run of iterations that each extend the listener extends it. *)
Lemma run_extends {A : Type} (step : A -> Listening C -> Listening C) :
  (forall a s, slot_inv s -> extends s (step a s)) ->
  forall selects s,
    slot_inv s -> extends s (fold_left (fun s a => step a s) selects s).
Proof.
  intros Hstep selects.
  induction selects as [|a selects IH]; intros s Hs; simpl.
  - apply extends_refl. exact Hs.
  - destruct (Hstep a s Hs) as [Hs' [more Hmore]].
    destruct (IH _ Hs') as [Hs'' [more' Hmore']].
    split; [exact Hs''|]. exists (more ++ more').
    rewrite Hmore', Hmore. symmetry. apply app_assoc.
Qed.



End Slot.


(** Outside repeated identical polls the slot is not protected: a Notice
    that is pending is replaced by the result of the next poll, here nil,
    and what the channel then accepts is the nil Notice. *)
Lemma pending_notice_overwritten :
  let script := [Some scenario.launch; None] in
  let pending :=
    LifecycleListener_Listen context_Background scenario.hooks
      [LifecycleDefault] script in
  let later :=
    LifecycleListener_Listen context_Background scenario.hooks
      [LifecycleDefault; LifecycleDefault; LifecycleSendAccepted] script in
  notice pending = Some scenario.launch /\ sent pending = [] /\
  notice later = None /\ sent later = [None].
Proof. repeat split; reflexivity. Qed.

(** ** Handling a Launch or Termination Notice *)

(** Filters of a trace that has grown by one event. *)
Ltac filter_snoc := rewrite !List.filter_app; simpl; rewrite !app_nil_r.

Lemma systemd_events_no_signal (events : list Event) :
  Forall systemd_event events ->
  completions events = [] /\ cancels events = [].
Proof.
  induction 1 as [|e events He _ [IHc IHs]]; [split; reflexivity|].
  destruct e; simpl in He; try contradiction; simpl; auto.
Qed.

Lemma split_snoc {A : Type} (l : list A) (e x : A) t1 t2 :
  l ++ [e] = t1 ++ x :: t2 ->
  (t2 = [] /\ l = t1 /\ e = x) \/
  (exists t2', t2 = t2' ++ [e] /\ l = t1 ++ x :: t2').
Proof.
  destruct t2 as [|y t2 _] using rev_ind; intros Heq.
  - left. apply app_inj_tail in Heq. tauto.
  - right. exists t2.
    change (l ++ [e] = t1 ++ (x :: t2) ++ [y]) in Heq.
    rewrite app_assoc in Heq. apply app_inj_tail in Heq.
    destruct Heq as [-> ->]. auto.
Qed.

Lemma completions_elem notice t :
  completions t = [Complete notice] -> Complete notice ∈ t.
Proof.
  intros Hc. apply list_elem_of_In.
  apply (proj1 (List.filter_In is_Complete (Complete notice) t)).
  unfold completions in Hc. rewrite Hc. simpl. auto.
Qed.

Lemma cancels_none t1 t2 : cancels (t1 ++ Cancel :: t2) <> [].
Proof.
  unfold cancels. rewrite List.filter_app. simpl.
  destruct (List.filter is_Cancel t1); discriminate.
Qed.

Section Lifecycle.
Context {C : Type} `{AWSClient C}.
Variable handler : ServiceHandler.
Variable notice : Notice.
Variable f : HandlerFunc.
Hypothesis f_events : Forall systemd_event (fst (f notice)).

Lemma handler_inv_step (choice : Choice) (s : Config C) :
  handler_inv notice f s ->
  handler_inv notice f (ForLifecycleAction_step handler notice f choice s).
Proof.
  intros Hinv. pose proof Hinv as [Hexit Hmain].
  assert (Hcancel : ctx_Done (cancel (ctx s)) = true).
  { unfold ctx_Done, cancel. destruct (ctx_Err (ctx s)) eqn:He; simpl.
    - rewrite He. reflexivity.
    - reflexivity. }
  destruct choice; unfold ForLifecycleAction_step.
  - (* RunMain *)
    destruct (main_pc s) as [| |err|err|err] eqn:Hpc.
    + destruct Hmain as [_ Ht].
      split; simpl; [discriminate|]. rewrite Ht. auto.
    + destruct (f notice) as [events err] eqn:Hf. simpl in f_events.
      destruct (systemd_events_no_signal _ f_events) as [Hc Hs].
      destruct Hmain as [Hmc Hms].
      split; simpl; [exact Hexit|].
      unfold completions, cancels in *.
      rewrite !List.filter_app, Hmc, Hms, Hc, Hs, Hf.
      destruct err; simpl; auto.
    + destruct (CompleteLifecycleAction (ctx s) notice (client s))
        as [err' client'].
      destruct Hmain as (Herr & Hmc & Hms).
      split; simpl; [exact Hexit|].
      unfold completions, cancels in *.
      rewrite !List.filter_app, Hmc, Hms.
      destruct err'; simpl; auto.
    + destruct Hmain as (Herr & Hmc & Hms).
      split; simpl; [intros _; exact Hcancel|].
      unfold completions, cancels in *.
      rewrite !List.filter_app, Hmc, Hms. simpl.
      repeat split; auto.
      intros t1 t2 Heq. apply split_snoc in Heq.
      destruct Heq as [(_ & <- & _)|[t2' [_ Heq]]].
      * apply completions_elem. exact Hmc.
      * exfalso. apply (cancels_none t1 t2'). rewrite <- Heq. exact Hms.
    + exact Hinv.
  - (* TakeTick *)
    destruct (heartbeat_pc s) eqn:Hhb; try exact Hinv.
    destruct (ticker_C s); [|exact Hinv].
    destruct (SendHeartbeat (ctx s) notice (client s)) as [err' client'].
    split; simpl; [discriminate|].
    unfold completions, cancels in *.
    destruct (main_pc s) as [| |err|err|err].
    + destruct Hmain as [Hbad _]. discriminate Hbad.
    + filter_snoc. exact Hmain.
    + filter_snoc. exact Hmain.
    + filter_snoc. exact Hmain.
    + filter_snoc.
      destruct Hmain as (Herr & Hmc & Hms & Hdone & Hord).
      repeat split; auto.
      intros t1 t2 Heq. apply split_snoc in Heq.
      destruct Heq as [(_ & _ & Hbad)|[t2' [_ Heq]]]; [discriminate|].
      eapply Hord. exact Heq.
  - (* TakeDone *)
    destruct (heartbeat_pc s) eqn:Hhb; try exact Hinv.
    destruct (ctx_Done (ctx s)) eqn:Hdone; [|exact Hinv].
    split; simpl; [intros _; exact Hdone|].
    pose proof (proj2 Hinv) as Hmain'. rewrite Hhb in Hmain'.
    destruct (main_pc s); try exact Hmain'.
    destruct Hmain' as [Hbad _]. discriminate Hbad.
  - (* TickerFires *)
    destruct (main_pc s) eqn:Hpc; try exact Hinv;
      (split; simpl; [exact Hexit|exact Hmain]).
  - (* ParentCanceled *)
    split; simpl; [intros _; exact Hcancel|].
    destruct (main_pc s); try exact Hmain.
    destruct Hmain as (Herr & Hmc & Hms & _ & Hord). auto.
Qed.

Lemma handler_inv_run (schedule : list Choice) (s : Config C) :
  handler_inv notice f s -> handler_inv notice f (run handler notice f schedule s).
Proof.
  revert s. induction schedule as [|choice schedule IH]; intros s Hs.
  - exact Hs.
  - simpl. apply IH. apply handler_inv_step. exact Hs.
Qed.

Lemma handler_inv_call (ctx0 : Context) (schedule : list Choice) (client0 : C) :
  handler_inv notice f
    (ForLifecycleAction handler ctx0 notice f schedule client0).
Proof.
  apply handler_inv_run. split; simpl; [discriminate|auto].
Qed.

Lemma run_app (before after : list Choice) (s : Config C) :
  run handler notice f (before ++ after) s
    = run handler notice f after (run handler notice f before s).
Proof. unfold run. apply fold_left_app. Qed.

Lemma RunMain_remaining (s : Config C) :
  remaining (main_pc (ForLifecycleAction_step handler notice f RunMain s))
    = pred (remaining (main_pc s)).
Proof.
  unfold ForLifecycleAction_step.
  destruct (main_pc s) as [| |err|err|err] eqn:Hpc; simpl.
  - reflexivity.
  - destruct (f notice) as [events err]. reflexivity.
  - destruct (CompleteLifecycleAction _ notice _) as [err' client'].
    reflexivity.
  - reflexivity.
  - rewrite Hpc. reflexivity.
Qed.

(** From anywhere, four steps of the calling thread end the call. *)
Lemma four_steps_return (s : Config C) :
  exists err,
    result (run handler notice f [RunMain; RunMain; RunMain; RunMain] s)
      = Some err.
Proof.
  unfold run. cbn [fold_left].
  match goal with
  | |- exists err, result ?s4 = Some err =>
      assert (Hrem : remaining (main_pc s4) = 0);
      [rewrite !RunMain_remaining; destruct (main_pc s); reflexivity|];
      unfold result; destruct (main_pc s4); try discriminate Hrem; eauto
  end.
Qed.

(** Once the goroutine has exited it stays so and sends no heartbeat. *)
Lemma exited_step (choice : Choice) (s : Config C) :
  handler_inv notice f s -> heartbeat_pc s = Exited ->
  let s' := ForLifecycleAction_step handler notice f choice s in
  heartbeat_pc s' = Exited /\ heartbeats (trace s') = heartbeats (trace s).
Proof.
  intros [_ Hmain] Hhb.
  destruct choice; unfold ForLifecycleAction_step; simpl.
  - destruct (main_pc s) as [| |err|err|err] eqn:Hpc.
    + destruct Hmain as [Hbad _]. congruence.
    + destruct (f notice) as [events err] eqn:Hf. simpl in f_events.
      simpl. split; [exact Hhb|].
      unfold heartbeats. rewrite !List.filter_app.
      assert (Hev : List.filter is_Heartbeat events = []).
      { clear -f_events. induction f_events as [|e events He _ IH];
          [reflexivity|].
        destruct e; simpl in He; try contradiction; simpl; exact IH. }
      rewrite Hev. destruct err; simpl; rewrite app_nil_r; reflexivity.
    + destruct (CompleteLifecycleAction _ notice _) as [err' client'].
      simpl. split; [exact Hhb|].
      unfold heartbeats. rewrite List.filter_app.
      destruct err'; simpl; rewrite app_nil_r; reflexivity.
    + simpl. split; [exact Hhb|].
      unfold heartbeats. rewrite List.filter_app. simpl.
      rewrite app_nil_r. reflexivity.
    + auto.
  - rewrite Hhb. auto.
  - rewrite Hhb. auto.
  - destruct (main_pc s); auto.
  - auto.
Qed.

Lemma exited_run (more : list Choice) (s : Config C) :
  handler_inv notice f s -> heartbeat_pc s = Exited ->
  heartbeats (trace (run handler notice f more s)) = heartbeats (trace s).
Proof.
  revert s. induction more as [|choice more IH]; intros s Hinv Hhb;
    [reflexivity|].
  simpl. destruct (exited_step choice s Hinv Hhb) as [Hhb' Heq].
  rewrite <- Heq. apply IH; [apply handler_inv_step; exact Hinv|exact Hhb'].
Qed.

End Lifecycle.

Lemma action_of_events handler conn notice :
  Forall systemd_event (fst (action_of handler conn notice notice)).
Proof.
  destruct notice; simpl;
    [apply WaitForServiceStop_events|apply WaitForServiceStart_events
    |apply WaitForServiceStop_events].
Qed.

(** Closes a goal about a call once the call is known to have returned a
    given pair. *)
Ltac returned := let Heq := fresh "Heq" in intros Heq; inversion Heq; auto.

Lemma awsClient_GetInstanceID_requests client r client' :
  awsClient_GetInstanceID client = (r, client') ->
  Requests client' = Requests client /\
  AutoScaling client' = AutoScaling client.
Proof.
  unfold awsClient_GetInstanceID.
  destruct (negb (String.eqb (InstanceID client) ""));
    [returned|].
  destruct (negb (ec2metadata.Available (EC2Metadata client)));
    [returned|].
  destruct (ec2metadata.GetMetadata _ _) as [instanceID [e|]];
    returned.
Qed.

Lemma awsClient_GetAutoScalingGroupName_requests ctx client r client' :
  awsClient_GetAutoScalingGroupName ctx client = (r, client') ->
  Requests client' = Requests client /\
  AutoScaling client' = AutoScaling client.
Proof.
  unfold awsClient_GetAutoScalingGroupName.
  destruct (negb (String.eqb (AutoScalingGroupName client) ""));
    [returned|].
  destruct (ec2metadata.GetMetadata _ _) as [instanceID [e|]];
    [returned|].
  destruct (autoscaling.DescribeAutoScalingInstancesWithContext _ _ _)
    as [output [e|]]; [returned|].
  destruct output as [|instance [|? ?]]; returned.
Qed.


(** With the instance and its group known to the client, as they are once
    queue discovery and a fetch have succeeded, the requests are made. *)
Lemma awsClient_CompleteLifecycleAction_known ctx notice ln client :
  lifecycleNotice_of notice = Some ln ->
  InstanceID client <> "" -> AutoScalingGroupName client <> "" ->
  let input :=
    complete_input (InstanceID client) (AutoScalingGroupName client) ln in
  awsClient_CompleteLifecycleAction ctx notice client
    = (autoscaling.CompleteLifecycleAction (AutoScaling client) input,
       issue client (ReqCompleteLifecycleAction input)).
Proof.
  intros Hln Hid Hname. unfold awsClient_CompleteLifecycleAction.
  rewrite Hln. unfold awsClient_GetInstanceID.
  apply String.eqb_neq in Hid. rewrite Hid. simpl.
  unfold awsClient_GetAutoScalingGroupName.
  apply String.eqb_neq in Hname. rewrite Hname. simpl. reflexivity.
Qed.

Lemma awsClient_SendHeartbeat_known ctx notice ln client :
  lifecycleNotice_of notice = Some ln ->
  InstanceID client <> "" -> AutoScalingGroupName client <> "" ->
  let input :=
    heartbeat_input (InstanceID client) (AutoScalingGroupName client) ln in
  awsClient_SendHeartbeat ctx notice client
    = (autoscaling.RecordLifecycleActionHeartbeat (AutoScaling client) input,
       issue client (ReqRecordLifecycleActionHeartbeat input)).
Proof.
  intros Hln Hid Hname. unfold awsClient_SendHeartbeat.
  rewrite Hln. unfold awsClient_GetInstanceID.
  apply String.eqb_neq in Hid. rewrite Hid. simpl.
  unfold awsClient_GetAutoScalingGroupName.
  apply String.eqb_neq in Hname. rewrite Hname. simpl. reflexivity.
Qed.

(** The log of a client that knows the instance and its group, step by
    step through a call. *)
Section Wire.
Variable lib : Library.
Variable handler : ServiceHandler.
Variable notice : Notice.
Variable ln : LifecycleNotice.
Variable f : HandlerFunc.
Variable client0 : awsClient.
Hypothesis notice_ln : lifecycleNotice_of notice = Some ln.
Hypothesis known_instance : InstanceID client0 <> "".
Hypothesis known_group : AutoScalingGroupName client0 <> "".

Lemma wire_inv_step (choice : Choice) (s : Config awsClient) :
  wire_inv client0 ln s ->
  wire_inv client0 ln
    (@ForLifecycleAction_step _ (awsClient_AWSClient lib) handler notice f
       choice s).
Proof.
  intros (Hid & Hname & Hlog).
  assert (Hid' : InstanceID (client s) <> "") by (rewrite Hid; assumption).
  assert (Hname' : AutoScalingGroupName (client s) <> "")
    by (rewrite Hname; assumption).
  destruct choice; unfold ForLifecycleAction_step.
  - destruct (main_pc s) as [| |err|err|err] eqn:Hpc.
    + repeat split; assumption.
    + destruct (f notice) as [events err]. repeat split; assumption.
    + simpl.
      rewrite (awsClient_CompleteLifecycleAction_known _ _ _ _
                 notice_ln Hid' Hname').
      repeat split; simpl; try assumption.
      unfold completion_requests in *. rewrite List.filter_app, Hlog.
      simpl. rewrite app_nil_r, Hid, Hname. reflexivity.
    + repeat split; assumption.
    + repeat split; try assumption. rewrite Hpc. exact Hlog.
  - destruct (heartbeat_pc s); try (repeat split; assumption).
    destruct (ticker_C s); [|repeat split; assumption].
    simpl.
    rewrite (awsClient_SendHeartbeat_known _ _ _ _ notice_ln Hid' Hname').
    repeat split; simpl; try assumption.
    unfold completion_requests in *. rewrite List.filter_app, Hlog.
    simpl. rewrite app_nil_r. reflexivity.
  - destruct (heartbeat_pc s); try (repeat split; assumption).
    destruct (ctx_Done (ctx s)); repeat split; assumption.
  - destruct (main_pc s) eqn:Hpc; repeat split; try assumption;
      simpl; rewrite ?Hpc; exact Hlog.
  - repeat split; assumption.
Qed.

Lemma wire_inv_call (ctx0 : Context) (schedule : list Choice) :
  wire_inv client0 ln
    (@ForLifecycleAction _ (awsClient_AWSClient lib) handler ctx0 notice f
       schedule client0).
Proof.
  unfold ForLifecycleAction, run.
  assert (Hinit : wire_inv client0 ln
            {| main_pc := AtSpawn; heartbeat_pc := NotSpawned; ctx := ctx0;
               ticker_C := false; client := client0; trace := [] |}).
  { repeat split; simpl. symmetry. apply app_nil_r. }
  revert Hinit. generalize
    {| main_pc := AtSpawn; heartbeat_pc := NotSpawned; ctx := ctx0;
       ticker_C := false; client := client0; trace := [] |}.
  induction schedule as [|choice schedule IH]; intros s Hs; simpl.
  - exact Hs.
  - apply IH. apply wire_inv_step. exact Hs.
Qed.

End Wire.

Section LifecycleHandling.
Context {C : Type} `{AWSClient C}.
Variable handler : ServiceHandler.
Variable conn : dbus.Conn.
Variable ctx0 : Context.

Lemma Handle_lifecycle notice ln (schedule : list Choice) (client0 : C) :
  lifecycleNotice_of notice = Some ln ->
  Handle handler conn ctx0 (Some notice) schedule client0
    = ForLifecycleAction handler ctx0 notice (action_of handler conn notice)
        schedule client0.
Proof. destruct notice; simpl; [discriminate|reflexivity|reflexivity]. Qed.

Lemma Handle_inv notice ln (schedule : list Choice) (client0 : C) :
  lifecycleNotice_of notice = Some ln ->
  handler_inv notice (action_of handler conn notice)
    (Handle handler conn ctx0 (Some notice) schedule client0).
Proof.
  intros Hln. rewrite (Handle_lifecycle _ _ _ _ Hln).
  apply handler_inv_call. apply action_of_events.
Qed.

(** The value Handle returns is the action's error, whatever the client
    answered. *)
Lemma Handle_result notice ln (schedule : list Choice) (client0 : C) err :
  lifecycleNotice_of notice = Some ln ->
  result (Handle handler conn ctx0 (Some notice) schedule client0) = Some err ->
  err = snd (action_of handler conn notice notice) /\
  completions (trace (Handle handler conn ctx0 (Some notice) schedule client0))
    = [Complete notice].
Proof.
  intros Hln Hres.
  destruct (Handle_inv notice ln schedule client0 Hln) as [_ Hmain].
  unfold result in Hres.
  destruct (main_pc _); try discriminate Hres.
  injection Hres as <-. tauto.
Qed.

(** The call returns: four steps of the calling thread from anywhere. *)
Lemma Handle_returns notice ln (schedule : list Choice) (client0 : C) :
  lifecycleNotice_of notice = Some ln ->
  exists err,
    result (Handle handler conn ctx0 (Some notice)
              (schedule ++ [RunMain; RunMain; RunMain; RunMain]) client0)
      = Some err.
Proof.
  intros Hln. rewrite (Handle_lifecycle _ _ _ _ Hln).
  unfold ForLifecycleAction.
  rewrite run_app by apply action_of_events.
  apply four_steps_return. apply action_of_events.
Qed.


(** C4 (as amended).  A failure of the completion send is logged and goes
    no further: the step that sends the completion prints the error and
    keeps the action's error as the value to return, the next step returns
    that value, and so what Handle returns is the action's error, nil when
    the action succeeded, whether the completion send failed or not. *)
Theorem completion_failure_logged notice ln (schedule : list Choice)
    (client0 : C) :
  lifecycleNotice_of notice = Some ln ->
  let f := action_of handler conn notice in
  (forall err,
     result (Handle handler conn ctx0 (Some notice) schedule client0)
       = Some err ->
     err = snd (f notice)) /\
  (forall (s : Config C) err e client',
     main_pc s = AtComplete err ->
     CompleteLifecycleAction (ctx s) notice (client s) = (Some e, client') ->
     let s' := ForLifecycleAction_step handler notice f RunMain s in
     main_pc s' = AtCancel err /\
     trace s' = trace s ++
       [Complete notice;
        Printf ("failed to complete " +:+ Notice_Type notice
                +:+ " lifecycle action: " +:+ Error e)]) /\
  (forall (s : Config C) err,
     main_pc s = AtCancel err ->
     result (ForLifecycleAction_step handler notice f RunMain s) = Some err).
Proof.
  intros Hln f. split; [|split].
  - intros err Hres.
    destruct (Handle_result notice ln schedule client0 err Hln Hres). auto.
  - intros s err e client' Hpc Hsend. unfold ForLifecycleAction_step.
    rewrite Hpc, Hsend. simpl. auto.
  - intros s err Hpc. unfold ForLifecycleAction_step, result.
    rewrite Hpc. reflexivity.
Qed.

(** C2 (as amended).  In every run of Handle on a Launch or Termination
    Notice the heartbeat task is told to stop after the completion
    acknowledgment has been sent, not before: every stop signal in the
    trace has the completion before it, and the call has given the signal
    by the time it returns.  The call does not wait for the task; the task
    exits only on a done context, and from its exit on, however the run
    goes on, no heartbeat is sent. *)
Theorem heartbeat_stopped_after_completion notice ln
    (schedule : list Choice) (client0 : C) :
  lifecycleNotice_of notice = Some ln ->
  let s := Handle handler conn ctx0 (Some notice) schedule client0 in
  (forall t1 t2, trace s = t1 ++ Cancel :: t2 -> Complete notice ∈ t1) /\
  (forall err, result s = Some err ->
     cancels (trace s) = [Cancel] /\ ctx_Done (ctx s) = true) /\
  (heartbeat_pc s = Exited ->
     ctx_Done (ctx s) = true /\
     forall more,
       heartbeats
         (trace (Handle handler conn ctx0 (Some notice) (schedule ++ more)
                   client0))
       = heartbeats (trace s)).
Proof.
  intros Hln s.
  pose proof (Handle_inv notice ln schedule client0 Hln) as Hinv.
  fold s in Hinv. pose proof Hinv as [Hexit Hmain].
  split; [|split].
  - intros t1 t2 Heq.
    destruct (main_pc s);
      try (exfalso; apply (cancels_none t1 t2); rewrite <- Heq; tauto).
    + exfalso. destruct Hmain as [_ Ht]. rewrite Ht in Heq.
      destruct t1; discriminate Heq.
    + destruct Hmain as (_ & _ & _ & _ & Hord). eapply Hord. exact Heq.
  - intros err Hres. unfold result in Hres.
    destruct (main_pc s); try discriminate Hres. tauto.
  - intros Hhb. split; [exact (Hexit Hhb)|]. intros more.
    rewrite (Handle_lifecycle _ _ _ _ Hln). unfold ForLifecycleAction.
    rewrite run_app by apply action_of_events.
    pose proof (Handle_lifecycle notice ln schedule client0 Hln) as Hs.
    unfold ForLifecycleAction in Hs. fold s in Hs. rewrite <- Hs.
    apply exited_run; [apply action_of_events|exact Hinv|exact Hhb].
Qed.

End LifecycleHandling.

(** On the wire, for a client that knows the instance and its group: when
    Handle has returned, the log has gained one completion request, with
    the Notice's hook and token and CONTINUE. *)
Lemma Handle_completion_request lib handler conn ctx0 notice ln
    (schedule : list Choice) (known : awsClient) err :
  lifecycleNotice_of notice = Some ln ->
  InstanceID known <> "" -> AutoScalingGroupName known <> "" ->
  let s :=
    @Handle _ (awsClient_AWSClient lib) handler conn ctx0 (Some notice)
      schedule known in
  result s = Some err ->
  completion_requests (Requests (client s))
    = completion_requests (Requests known) ++
      [ReqCompleteLifecycleAction
         (complete_input (InstanceID known) (AutoScalingGroupName known) ln)].
Proof.
  intros Hln Hid Hname s Hres.
  pose proof (wire_inv_call lib handler notice ln
                (action_of handler conn notice) known Hln Hid Hname
                ctx0 schedule) as (_ & _ & Hlog).
  rewrite <- (@Handle_lifecycle _ (awsClient_AWSClient lib) handler conn ctx0
                notice ln schedule known Hln) in Hlog.
  fold s in Hlog. unfold result in Hres.
  destruct (main_pc s); try discriminate Hres. exact Hlog.
Qed.


(** ** The handler on the scripted instance *)


(** The same launch on the wire: one heartbeat and one completion, with
    the hook, the token and CONTINUE. *)
Lemma launch_requests :
  Requests (client
    (@Handle _ (awsClient_AWSClient scenario.lib) scenario.web
       (scenario.systemd 7 "done") context_Background (Some scenario.launch)
       [RunMain; TickerFires; TakeTick; RunMain; RunMain; RunMain]
       (scenario.new_client None [] None)))
  = [ReqRecordLifecycleActionHeartbeat
       {| autoscaling.hb_InstanceId := "i-0aaa";
          autoscaling.hb_AutoScalingGroupName := "web-asg";
          autoscaling.hb_LifecycleHookName := "launch-hook";
          autoscaling.hb_LifecycleActionToken := "tok-1" |};
     ReqCompleteLifecycleAction
       {| autoscaling.InstanceId := "i-0aaa";
          autoscaling.AutoScalingGroupName := "web-asg";
          autoscaling.LifecycleHookName := "launch-hook";
          autoscaling.LifecycleActionToken := "tok-1";
          autoscaling.LifecycleActionResult := "CONTINUE" |}].
Proof. reflexivity. Qed.

(** C4 as stated fails: the start succeeds, the completion send is
    refused, the refusal is printed, and Handle returns nil. *)
Lemma completion_failure_not_returned :
  let client0 := scenario.new_client (Some scenario.access_denied) [] None in
  let s :=
    @Handle _ (awsClient_AWSClient scenario.lib) scenario.web
      (scenario.systemd 7 "done") context_Background (Some scenario.launch)
      [RunMain; RunMain; RunMain; RunMain] client0 in
  fst (awsClient_CompleteLifecycleAction context_Background scenario.launch
         client0) = Some scenario.access_denied /\
  trace s
    = [StartUnit "web.service" "fail"; Complete scenario.launch;
       Printf "failed to complete launch lifecycle action: AccessDenied";
       Cancel] /\
  result s = Some None.
Proof. repeat split; reflexivity. Qed.

Lemma completion_failure_logged_witness :
  None = snd (action_of scenario.web (scenario.systemd 7 "done")
                scenario.launch scenario.launch).
Proof.
  exact (proj1
    (@completion_failure_logged _ (awsClient_AWSClient scenario.lib)
       scenario.web (scenario.systemd 7 "done") context_Background
       scenario.launch
       {| LifecycleHookName := "launch-hook"; LifecycleActionToken := "tok-1" |}
       [RunMain; RunMain; RunMain; RunMain]
       (scenario.new_client (Some scenario.access_denied) [] None) eq_refl)
    None eq_refl).
Defined.

(** C2 as stated fails: the ticker fires after the completion has been
    sent and the goroutine takes the tick; it fires again after
    [cancel()], when both cases of the select are ready, and the goroutine
    takes the tick once more.  Two heartbeats follow the completion, the
    second after Handle has returned, and the goroutine is still running. *)
Lemma heartbeat_after_completion :
  let s :=
    @Handle _ (awsClient_AWSClient scenario.lib) scenario.web
      (scenario.systemd 7 "done") context_Background (Some scenario.launch)
      [RunMain; RunMain; RunMain; TickerFires; TakeTick;
       RunMain; TickerFires; TakeTick]
      (scenario.new_client None [] None) in
  trace s
    = [StartUnit "web.service" "fail"; Complete scenario.launch;
       Heartbeat scenario.launch; Cancel; Heartbeat scenario.launch] /\
  heartbeats (after_completion (trace s))
    = [Heartbeat scenario.launch; Heartbeat scenario.launch] /\
  result s = Some None /\
  heartbeat_pc s = Selecting.
Proof. repeat split; reflexivity. Qed.

Lemma heartbeat_stopped_after_completion_witness :
  let schedule :=
    [RunMain; TickerFires; TakeTick; RunMain; RunMain; RunMain; TakeDone] in
  let s :=
    @Handle _ (awsClient_AWSClient scenario.lib) scenario.web
      (scenario.systemd 7 "done") context_Background (Some scenario.launch)
      schedule (scenario.new_client None [] None) in
  ctx_Done (ctx s) = true /\
  heartbeats
    (trace (@Handle _ (awsClient_AWSClient scenario.lib) scenario.web
              (scenario.systemd 7 "done") context_Background
              (Some scenario.launch) (schedule ++ [TickerFires; TakeTick])
              (scenario.new_client None [] None)))
    = heartbeats (trace s).
Proof.
  pose proof
    (proj2 (proj2
      (@heartbeat_stopped_after_completion _
         (awsClient_AWSClient scenario.lib)
         scenario.web (scenario.systemd 7 "done") context_Background
         scenario.launch
         {| LifecycleHookName := "launch-hook";
            LifecycleActionToken := "tok-1" |}
         [RunMain; TickerFires; TakeTick; RunMain; RunMain; RunMain; TakeDone]
         (scenario.new_client None [] None) eq_refl)) eq_refl) as [Hdone Hmore].
  split; [exact Hdone|exact (Hmore [TickerFires; TakeTick])].
Defined.

(** ** The spot poll on the scripted instance *)

(** Before the instance is reclaimed the metadata path answers 404, which
    is no Notice and no error; afterwards the deadline is parsed. *)
Example spot_not_reclaimed :
  awsClient_GetSpotNotice scenario.lib (scenario.new_client None [] None)
    = ((None, None), scenario.new_client None [] None).
Proof. reflexivity. Qed.

Example spot_reclaimed :
  awsClient_GetSpotNotice scenario.lib scenario.reclaimed_client
    = ((Some (SpotNotice scenario.deadline), None), scenario.reclaimed_client).
Proof. reflexivity. Qed.

(** * Further properties *)

(** ** What the start and stop actions report *)

(** The start action returns nil exactly when the bus was reached, the
    unit was listed exactly once and the start request was accepted; the
    stop action likewise.  Nothing that happens to the job afterwards
    changes the result. *)
Theorem action_nil_iff (handler : ServiceHandler) (conn : dbus.Conn)
    (notice : Notice) :
  (snd (WaitForServiceStart handler conn notice) = None <->
   dbus.New conn = None /\
   (exists unit,
      dbus.ListUnitsByNames conn [Service handler] = ([unit], None)) /\
   snd (dbus.StartUnit conn (Service handler) "fail") = None) /\
  (snd (WaitForServiceStop handler conn notice) = None <->
   dbus.New conn = None /\
   (exists unit,
      dbus.ListUnitsByNames conn [Service handler] = ([unit], None)) /\
   snd (dbus.StopUnit conn (Service handler) "fail") = None).
Proof.
  split.
  - unfold WaitForServiceStart.
    destruct (dbus.New conn) as [e|];
      [split; [discriminate|intros [Hbad _]; discriminate Hbad]|].
    destruct (dbus.ListUnitsByNames conn [Service handler])
      as [units [e|]];
      [split; [discriminate|intros (_ & [unit Hbad] & _); discriminate Hbad]|].
    destruct units as [|unit [|unit' units]]; simpl;
      try (split; [discriminate|intros (_ & [u Hbad] & _); discriminate Hbad]).
    destruct (dbus.StartUnit conn (Service handler) "fail") as [n [e|]]; simpl.
    + split; [discriminate|intros (_ & _ & Hbad); discriminate Hbad].
    + destruct (n =? 0)%Z,
        (negb (String.eqb (dbus.StartUnit_result conn) "done")); simpl;
        (split; [intros _; eauto|reflexivity]).
  - unfold WaitForServiceStop.
    destruct (dbus.New conn) as [e|];
      [split; [discriminate|intros [Hbad _]; discriminate Hbad]|].
    destruct (dbus.ListUnitsByNames conn [Service handler])
      as [units [e|]];
      [split; [discriminate|intros (_ & [unit Hbad] & _); discriminate Hbad]|].
    destruct units as [|unit [|unit' units]]; simpl;
      try (split; [discriminate|intros (_ & [u Hbad] & _); discriminate Hbad]).
    destruct (dbus.StopUnit conn (Service handler) "fail") as [n [e|]]; simpl.
    + split; [discriminate|intros (_ & _ & Hbad); discriminate Hbad].
    + destruct (n =? 0)%Z,
        (negb (String.eqb (dbus.StopUnit_result conn) "done")); simpl;
        (split; [intros _; eauto|reflexivity]).
Qed.

Lemma unit_touched_cases (handler : ServiceHandler)
    (conn : dbus.Conn) (notice : Notice) :
  let listed :=
    dbus.New conn = None /\
    exists unit,
      dbus.ListUnitsByNames conn [Service handler] = ([unit], None) in
  (fst (WaitForServiceStart handler conn notice)
     = [StartUnit (Service handler) "fail"] /\ listed
   \/ fst (WaitForServiceStart handler conn notice) = [] /\ ~ listed) /\
  (fst (WaitForServiceStop handler conn notice)
     = [StopUnit (Service handler) "fail"] /\ listed
   \/ fst (WaitForServiceStop handler conn notice) = [] /\ ~ listed).
Proof.
  cbv zeta. split.
  - unfold WaitForServiceStart.
    destruct (dbus.New conn) as [e|];
      [right; split; [reflexivity|intros [Hbad _]; discriminate Hbad]|].
    destruct (dbus.ListUnitsByNames conn [Service handler])
      as [units [e|]];
      [right; split;
         [reflexivity|intros (_ & [unit Hbad]); discriminate Hbad]|].
    destruct units as [|unit [|unit' units]]; simpl;
      try (right; split;
             [reflexivity|intros (_ & [u Hbad]); discriminate Hbad]).
    left.
    destruct (dbus.StartUnit conn (Service handler) "fail") as [n [e|]];
      simpl; [eauto|].
    destruct (n =? 0)%Z,
      (negb (String.eqb (dbus.StartUnit_result conn) "done")); simpl; eauto.
  - unfold WaitForServiceStop.
    destruct (dbus.New conn) as [e|];
      [right; split; [reflexivity|intros [Hbad _]; discriminate Hbad]|].
    destruct (dbus.ListUnitsByNames conn [Service handler])
      as [units [e|]];
      [right; split;
         [reflexivity|intros (_ & [unit Hbad]); discriminate Hbad]|].
    destruct units as [|unit [|unit' units]]; simpl;
      try (right; split;
             [reflexivity|intros (_ & [u Hbad]); discriminate Hbad]).
    left.
    destruct (dbus.StopUnit conn (Service handler) "fail") as [n [e|]];
      simpl; [eauto|].
    destruct (n =? 0)%Z,
      (negb (String.eqb (dbus.StopUnit_result conn) "done")); simpl; eauto.
Qed.

(** The unit is asked to start, or to stop, at most once per call, always
    by its name and in mode fail, and only after it was listed exactly
    once: a unit that is unknown to systemd, or listed twice, is never
    touched. *)
Theorem unit_touched_only_when_listed (handler : ServiceHandler)
    (conn : dbus.Conn) (notice : Notice) :
  let listed :=
    dbus.New conn = None /\
    exists unit,
      dbus.ListUnitsByNames conn [Service handler] = ([unit], None) in
  (fst (WaitForServiceStart handler conn notice)
     = [StartUnit (Service handler) "fail"] /\ listed
   \/ fst (WaitForServiceStart handler conn notice) = [] /\ ~ listed) /\
  (fst (WaitForServiceStop handler conn notice)
     = [StopUnit (Service handler) "fail"] /\ listed
   \/ fst (WaitForServiceStop handler conn notice) = [] /\ ~ listed).
Proof. exact (unit_touched_cases handler conn notice). Qed.

(** ** The action, the heartbeats and the goroutine within a call *)

Lemma after_completion_app (t l : list Event) :
  after_completion (t ++ l)
    = match completions t with
      | [] => after_completion l
      | _ => after_completion t ++ l
      end.
Proof.
  induction t as [|e t IH]; simpl; [reflexivity|].
  unfold completions in *. simpl.
  destruct (is_Complete e); [reflexivity|exact IH].
Qed.

Lemma after_completion_none (l : list Event) :
  completions l = [] -> after_completion l = [].
Proof.
  induction l as [|e l IH]; simpl; [reflexivity|].
  unfold completions in *. simpl.
  destruct (is_Complete e); [discriminate|exact IH].
Qed.

Lemma systemd_calls_of_action (events : list Event) :
  Forall systemd_event events ->
  systemd_calls events = events /\ heartbeats events = [].
Proof.
  induction 1 as [|e events He _ [IHs IHh]]; [split; reflexivity|].
  unfold systemd_calls, heartbeats in *.
  destruct e; simpl in He; try contradiction; simpl;
    rewrite IHs, IHh; auto.
Qed.

Section Call.
Context {C : Type} `{AWSClient C}.
Variable handler : ServiceHandler.
Variable notice : Notice.
Variable f : HandlerFunc.
Hypothesis f_events : Forall systemd_event (fst (f notice)).

Lemma action_inv_step (choice : Choice) (s : Config C) :
  handler_inv notice f s -> action_inv notice f s ->
  action_inv notice f (ForLifecycleAction_step handler notice f choice s).
Proof.
  intros [_ Hmain] Hinv. pose proof Hinv as (Hsp & Hsys & Haft & Hhb).
  destruct (systemd_calls_of_action _ f_events) as [Hfs Hfh].
  destruct (systemd_events_no_signal _ f_events) as [Hfc _].
  destruct choice; unfold ForLifecycleAction_step.
  - (* RunMain *)
    destruct (main_pc s) as [| |err|err|err] eqn:Hpc.
    + split; [right; discriminate|]. repeat split; simpl; auto.
    + destruct (f notice) as [events err] eqn:Hf. simpl in *.
      destruct Hmain as [Hmc _].
      assert (Hpr : forall printed : list Event,
                (printed = [] \/ exists msg, printed = [Printf msg]) ->
                action_inv notice f
                  {| main_pc := AtComplete err; heartbeat_pc := heartbeat_pc s;
                     ctx := ctx s; ticker_C := ticker_C s; client := client s;
                     trace := trace s ++ events ++ printed |}).
      { intros printed Hprinted. split; [|split; [|split]]; simpl.
        - destruct Hsp as [Hbad|Hsp]; [discriminate Hbad|auto].
        - rewrite Hf. simpl. unfold systemd_calls in *.
          rewrite !List.filter_app, Hsys, Hfs.
          destruct Hprinted as [->|[msg ->]]; simpl; apply app_nil_r.
        - rewrite after_completion_app, Hmc.
          rewrite after_completion_none; [reflexivity|].
          unfold completions in *. rewrite List.filter_app, Hfc.
          destruct Hprinted as [->|[msg ->]]; reflexivity.
        - unfold heartbeats in *. rewrite !List.filter_app, Hfh.
          destruct Hprinted as [->|[msg ->]]; simpl;
            rewrite app_nil_r; exact Hhb. }
      destruct err; apply Hpr; eauto.
    + destruct (CompleteLifecycleAction (ctx s) notice (client s))
        as [err' client'].
      destruct Hmain as (_ & Hmc & _).
      assert (Hpr : forall printed : list Event,
                (printed = [] \/ exists msg, printed = [Printf msg]) ->
                action_inv notice f
                  {| main_pc := AtCancel err; heartbeat_pc := heartbeat_pc s;
                     ctx := ctx s; ticker_C := ticker_C s; client := client';
                     trace := trace s ++ Complete notice :: printed |}).
      { intros printed Hprinted. split; [|split; [|split]]; simpl.
        - destruct Hsp as [Hbad|Hsp]; [discriminate Hbad|auto].
        - unfold systemd_calls in *. rewrite List.filter_app, Hsys.
          destruct Hprinted as [->|[msg ->]]; simpl; apply app_nil_r.
        - rewrite after_completion_app, Hmc. simpl.
          destruct Hprinted as [->|[msg ->]]; reflexivity.
        - unfold heartbeats in *. rewrite List.filter_app.
          destruct Hprinted as [->|[msg ->]]; simpl;
            rewrite app_nil_r; exact Hhb. }
      destruct err'; apply Hpr; eauto.
    + destruct Hmain as (_ & Hmc & _).
      split; [|split; [|split]]; simpl.
      * destruct Hsp as [Hbad|Hsp]; [discriminate Hbad|auto].
      * unfold systemd_calls in *. rewrite List.filter_app, Hsys.
        simpl. apply app_nil_r.
      * rewrite after_completion_app, Hmc.
        unfold systemd_calls in *. rewrite List.filter_app, Haft.
        reflexivity.
      * unfold heartbeats in *. rewrite List.filter_app. simpl.
        rewrite app_nil_r. exact Hhb.
    + exact Hinv.
  - (* TakeTick *)
    destruct (heartbeat_pc s) eqn:Hpc; try exact Hinv.
    destruct (ticker_C s); [|exact Hinv].
    destruct (SendHeartbeat (ctx s) notice (client s)) as [err' client'].
    split; [|split; [|split]]; simpl.
    + right. discriminate.
    + unfold systemd_calls in *. rewrite List.filter_app, Hsys.
      simpl. apply app_nil_r.
    + rewrite after_completion_app.
      destruct (completions (trace s)); [reflexivity|].
      unfold systemd_calls in *. rewrite List.filter_app, Haft.
      reflexivity.
    + unfold heartbeats in *. rewrite List.filter_app. simpl.
      apply Forall_app. split; [exact Hhb|repeat constructor].
  - (* TakeDone *)
    destruct (heartbeat_pc s) eqn:Hpc; try exact Hinv.
    destruct (ctx_Done (ctx s)); [|exact Hinv].
    split; [right; discriminate|]. repeat split; simpl; auto.
  - (* TickerFires *)
    destruct (main_pc s) eqn:Hpc; try exact Hinv;
      (split; [|split; [|split]]; simpl; rewrite ?Hpc; auto).
  - (* ParentCanceled *)
    split; [|split; [|split]]; simpl; auto.
Qed.

Lemma both_inv_run (schedule : list Choice) (s : Config C) :
  handler_inv notice f s -> action_inv notice f s ->
  handler_inv notice f (run handler notice f schedule s) /\
  action_inv notice f (run handler notice f schedule s).
Proof.
  revert s. induction schedule as [|choice schedule IH]; intros s Hh Ha.
  - split; assumption.
  - simpl. apply IH.
    + apply handler_inv_step; assumption.
    + apply action_inv_step; assumption.
Qed.

Lemma action_inv_call (ctx0 : Context) (schedule : list Choice) (client0 : C) :
  handler_inv notice f
    (ForLifecycleAction handler ctx0 notice f schedule client0) /\
  action_inv notice f
    (ForLifecycleAction handler ctx0 notice f schedule client0).
Proof.
  apply both_inv_run.
  - split; simpl; [discriminate|auto].
  - repeat split; simpl; auto.
Qed.

(** A heartbeat takes a tick: along any run, the heartbeats sent and the
    tick that waits never outnumber the heartbeats there were, the tick
    that waited and the times the ticker fired. *)
Lemma ticks_step (choice : Choice) (s : Config C) :
  let s' := ForLifecycleAction_step handler notice f choice s in
  length (heartbeats (trace s')) + waiting (ticker_C s')
    <= length (heartbeats (trace s)) + waiting (ticker_C s)
       + (if is_TickerFires choice then 1 else 0).
Proof.
  destruct (systemd_calls_of_action _ f_events) as [_ Hfh].
  destruct choice; unfold ForLifecycleAction_step; simpl.
  - destruct (main_pc s) as [| |err|err|err]; simpl.
    + destruct (ticker_C s); simpl; lia.
    + destruct (f notice) as [events err]. simpl in *.
      unfold heartbeats in *. rewrite !List.filter_app, Hfh.
      destruct err; simpl; rewrite app_nil_r; lia.
    + destruct (CompleteLifecycleAction _ notice _) as [err' client'].
      simpl. unfold heartbeats. rewrite List.filter_app.
      destruct err'; simpl; rewrite app_nil_r; lia.
    + unfold heartbeats. rewrite List.filter_app. simpl.
      rewrite app_nil_r. lia.
    + lia.
  - destruct (heartbeat_pc s); try lia.
    destruct (ticker_C s) eqn:Ht; [|simpl; rewrite Ht; simpl; lia].
    destruct (SendHeartbeat _ notice _) as [err' client']. simpl.
    unfold heartbeats. rewrite List.filter_app, length_app. simpl. lia.
  - destruct (heartbeat_pc s); try lia.
    destruct (ctx_Done (ctx s)); simpl; lia.
  - destruct (main_pc s); simpl; destruct (ticker_C s); simpl; lia.
  - lia.
Qed.

Lemma ticks_run (schedule : list Choice) (s : Config C) :
  let s' := run handler notice f schedule s in
  length (heartbeats (trace s')) + waiting (ticker_C s')
    <= length (heartbeats (trace s)) + waiting (ticker_C s) + fires schedule.
Proof.
  revert s. induction schedule as [|choice schedule IH]; intros s; simpl.
  - unfold fires. simpl. lia.
  - pose proof (ticks_step choice s) as Hstep. simpl in Hstep.
    pose proof (IH (ForLifecycleAction_step handler notice f choice s)) as Hrun.
    simpl in Hrun. unfold fires in *. simpl.
    destruct (is_TickerFires choice); simpl; lia.
Qed.

End Call.

Section CallOfHandle.
Context {C : Type} `{AWSClient C}.
Variable handler : ServiceHandler.
Variable conn : dbus.Conn.
Variable ctx0 : Context.

Lemma Handle_both_inv notice ln (schedule : list Choice) (client0 : C) :
  lifecycleNotice_of notice = Some ln ->
  handler_inv notice (action_of handler conn notice)
    (Handle handler conn ctx0 (Some notice) schedule client0) /\
  action_inv notice (action_of handler conn notice)
    (Handle handler conn ctx0 (Some notice) schedule client0).
Proof.
  intros Hln. rewrite (Handle_lifecycle _ _ _ _ _ _ _ Hln).
  apply action_inv_call. apply action_of_events.
Qed.

(** In every run of Handle on a Launch or Termination Notice the action
    is run once and before the completion: the calls to systemd in the
    trace are none until the action has run and the action's own from then
    on, they are all there when the completion is sent, and none follows
    the completion. *)
Theorem action_once_before_completion notice ln (schedule : list Choice)
    (client0 : C) :
  lifecycleNotice_of notice = Some ln ->
  let s := Handle handler conn ctx0 (Some notice) schedule client0 in
  let calls := fst (action_of handler conn notice notice) in
  (systemd_calls (trace s) = [] \/ systemd_calls (trace s) = calls) /\
  (completions (trace s) <> [] -> systemd_calls (trace s) = calls) /\
  systemd_calls (after_completion (trace s)) = [].
Proof.
  intros Hln s calls.
  destruct (Handle_both_inv notice ln schedule client0 Hln)
    as [[_ Hmain] (_ & Hsys & Haft & _)].
  fold s in Hmain, Hsys, Haft.
  split; [|split].
  - rewrite Hsys. destruct (main_pc s); auto.
  - intros Hc. rewrite Hsys.
    destruct (main_pc s); try reflexivity; exfalso; apply Hc.
    + destruct Hmain as [_ ->]. reflexivity.
    + tauto.
  - exact Haft.
Qed.

(** A heartbeat takes a tick, and is for the Notice being handled: in
    every run of Handle on a Launch or Termination Notice the heartbeats
    sent are at most as many as the times the ticker has fired, and each is
    sent for this Notice. *)
Theorem heartbeats_bounded_by_ticks notice ln (schedule : list Choice)
    (client0 : C) :
  lifecycleNotice_of notice = Some ln ->
  let s := Handle handler conn ctx0 (Some notice) schedule client0 in
  length (heartbeats (trace s)) <= fires schedule /\
  Forall (eq (Heartbeat notice)) (heartbeats (trace s)).
Proof.
  intros Hln s. split.
  - subst s. rewrite (Handle_lifecycle _ _ _ _ _ _ _ Hln).
    unfold ForLifecycleAction.
    pose proof (ticks_run handler notice (action_of handler conn notice)
                  (action_of_events handler conn notice) schedule
                  {| main_pc := AtSpawn; heartbeat_pc := NotSpawned;
                     ctx := ctx0; ticker_C := false; client := client0;
                     trace := [] |}) as Hticks.
    simpl in Hticks. lia.
  - destruct (Handle_both_inv notice ln schedule client0 Hln)
      as [_ (_ & _ & _ & Hhb)].
    exact Hhb.
Qed.

(** The stop signal works.  From any point of a run of Handle on a Launch
    or Termination Notice, let the calling thread finish (four steps) and
    the goroutine take [ctx.Done()] at its select: the goroutine has
    exited, and however the run goes on no further heartbeat is sent. *)
Theorem heartbeat_task_exits_after_return notice ln
    (schedule more : list Choice) (client0 : C) :
  lifecycleNotice_of notice = Some ln ->
  let finish := [RunMain; RunMain; RunMain; RunMain; TakeDone] in
  let s := Handle handler conn ctx0 (Some notice) (schedule ++ finish) client0 in
  heartbeat_pc s = Exited /\
  heartbeats
    (trace (Handle handler conn ctx0 (Some notice)
              ((schedule ++ finish) ++ more) client0))
    = heartbeats (trace s).
Proof.
  intros Hln finish s.
  assert (Hexit : heartbeat_pc s = Exited).
  { subst s finish.
    change [RunMain; RunMain; RunMain; RunMain; TakeDone]
      with ([RunMain; RunMain; RunMain; RunMain] ++ [TakeDone]).
    rewrite app_assoc.
    destruct (Handle_returns handler conn ctx0 notice ln schedule client0 Hln)
      as [err Hres].
    destruct (Handle_both_inv notice ln
                (schedule ++ [RunMain; RunMain; RunMain; RunMain]) client0 Hln)
      as [[_ Hmain] (Hsp & _)].
    rewrite !(Handle_lifecycle _ _ _ _ _ _ _ Hln) in *.
    unfold ForLifecycleAction in *.
    rewrite (run_app _ _ _
               (schedule ++ [RunMain; RunMain; RunMain; RunMain]) [TakeDone]).
    set (s4 := run handler notice (action_of handler conn notice)
                 (schedule ++ [RunMain; RunMain; RunMain; RunMain]) _) in *.
    unfold result in Hres.
    destruct (main_pc s4) eqn:Hpc; try discriminate Hres.
    destruct Hmain as (_ & _ & _ & Hdone & _).
    destruct Hsp as [Hbad|Hsp]; [discriminate Hbad|].
    unfold run. cbn [fold_left]. unfold ForLifecycleAction_step.
    destruct (heartbeat_pc s4) eqn:Hhb; [congruence| |exact Hhb].
    rewrite Hdone. reflexivity. }
  split; [exact Hexit|].
  pose proof (Handle_both_inv notice ln (schedule ++ finish) client0 Hln)
    as [Hinv _].
  fold s in Hinv. subst s.
  rewrite !(Handle_lifecycle _ _ _ _ _ _ _ Hln) in *.
  unfold ForLifecycleAction in *. rewrite run_app.
  apply exited_run; [apply action_of_events|exact Hinv|exact Hexit].
Qed.

(** Launch starts and never stops; Termination and Spot-Termination stop
    and never start: in every run of Handle on a Notice, every call to
    systemd in the trace is for the handler's unit in mode fail, a start
    for a Launch Notice and a stop for the other two. *)
Theorem launch_starts_others_stop (notice : Notice) (schedule : list Choice)
    (client0 : C) :
  let s := Handle handler conn ctx0 (Some notice) schedule client0 in
  forall e, e ∈ trace s -> is_systemd e = true ->
    e = match notice with
        | LaunchNotice _ => StartUnit (Service handler) "fail"
        | _ => StopUnit (Service handler) "fail"
        end.
Proof.
  intros s e Hin He.
  assert (Hcalls : e ∈ fst (action_of handler conn notice notice)).
  { destruct notice as [t|ln|ln].
    - exact Hin.
    - destruct (Handle_both_inv (LaunchNotice ln) ln schedule client0 eq_refl)
        as [_ (_ & Hsys & _)].
      fold s in Hsys.
      assert (Hf : e ∈ systemd_calls (trace s)).
      { apply list_elem_of_In. apply List.filter_In. split; [|exact He].
        apply list_elem_of_In. exact Hin. }
      rewrite Hsys in Hf. destruct (main_pc s); try exact Hf;
        apply elem_of_nil in Hf; contradiction.
    - destruct (Handle_both_inv (TerminationNotice ln) ln schedule client0
                  eq_refl) as [_ (_ & Hsys & _)].
      fold s in Hsys.
      assert (Hf : e ∈ systemd_calls (trace s)).
      { apply list_elem_of_In. apply List.filter_In. split; [|exact He].
        apply list_elem_of_In. exact Hin. }
      rewrite Hsys in Hf. destruct (main_pc s); try exact Hf;
        apply elem_of_nil in Hf; contradiction. }
  destruct (unit_touched_cases handler conn notice)
    as [Hstart Hstop].
  destruct notice as [t|ln|ln]; simpl in Hcalls.
  - destruct Hstop as [[Heq _]|[Heq _]]; rewrite Heq in Hcalls.
    + apply list_elem_of_In in Hcalls. destruct Hcalls as [<-|[]]. reflexivity.
    + apply elem_of_nil in Hcalls. contradiction.
  - destruct Hstart as [[Heq _]|[Heq _]]; rewrite Heq in Hcalls.
    + apply list_elem_of_In in Hcalls. destruct Hcalls as [<-|[]]. reflexivity.
    + apply elem_of_nil in Hcalls. contradiction.
  - destruct Hstop as [[Heq _]|[Heq _]]; rewrite Heq in Hcalls.
    + apply list_elem_of_In in Hcalls. destruct Hcalls as [<-|[]]. reflexivity.
    + apply elem_of_nil in Hcalls. contradiction.
Qed.

End CallOfHandle.

(** ** The handler's requests on the wire *)

Section WireHeartbeats.
Variable lib : Library.
Variable handler : ServiceHandler.
Variable notice : Notice.
Variable ln : LifecycleNotice.
Variable f : HandlerFunc.
Variable client0 : awsClient.
Hypothesis notice_ln : lifecycleNotice_of notice = Some ln.
Hypothesis known_instance : InstanceID client0 <> "".
Hypothesis known_group : AutoScalingGroupName client0 <> "".
Hypothesis f_events : Forall systemd_event (fst (f notice)).

Lemma replicate_snoc {A : Type} (n : nat) (x : A) :
  replicate (n + 1) x = replicate n x ++ [x].
Proof.
  induction n as [|n IH]; simpl; [reflexivity|]. rewrite IH. reflexivity.
Qed.

Lemma heartbeat_wire_inv_step (choice : Choice) (s : Config awsClient) :
  heartbeat_wire_inv client0 ln s ->
  heartbeat_wire_inv client0 ln
    (@ForLifecycleAction_step _ (awsClient_AWSClient lib) handler notice f
       choice s).
Proof.
  intros (Hid & Hname & Hlog & Hdel).
  assert (Hid' : InstanceID (client s) <> "") by (rewrite Hid; assumption).
  assert (Hname' : AutoScalingGroupName (client s) <> "")
    by (rewrite Hname; assumption).
  destruct (systemd_calls_of_action _ f_events) as [_ Hfh].
  destruct choice; unfold ForLifecycleAction_step.
  - destruct (main_pc s) as [| |err|err|err] eqn:Hpc.
    + repeat split; assumption.
    + destruct (f notice) as [events err]. simpl in Hfh.
      repeat split; simpl; try assumption.
      unfold heartbeats in *. rewrite !List.filter_app, Hfh.
      destruct err; simpl; rewrite app_nil_r; exact Hlog.
    + simpl.
      rewrite (awsClient_CompleteLifecycleAction_known _ _ _ _
                 notice_ln Hid' Hname').
      repeat split; simpl; try assumption.
      * unfold heartbeat_requests, heartbeats in *.
        rewrite !List.filter_app. simpl. rewrite app_nil_r.
        destruct (autoscaling.CompleteLifecycleAction _ _); simpl;
          rewrite app_nil_r; exact Hlog.
      * unfold delete_requests in *. rewrite List.filter_app. simpl.
        rewrite app_nil_r. exact Hdel.
    + repeat split; simpl; try assumption.
      unfold heartbeats in *. rewrite List.filter_app. simpl.
      rewrite app_nil_r. exact Hlog.
    + repeat split; assumption.
  - destruct (heartbeat_pc s); try (repeat split; assumption).
    destruct (ticker_C s); [|repeat split; assumption].
    simpl.
    rewrite (awsClient_SendHeartbeat_known _ _ _ _ notice_ln Hid' Hname').
    repeat split; simpl; try assumption.
    + unfold heartbeat_requests, heartbeats in *.
      rewrite !List.filter_app, length_app. simpl.
      rewrite replicate_snoc, Hlog, Hid, Hname. symmetry. apply app_assoc.
    + unfold delete_requests in *. rewrite List.filter_app. simpl.
      rewrite app_nil_r. exact Hdel.
  - destruct (heartbeat_pc s); try (repeat split; assumption).
    destruct (ctx_Done (ctx s)); repeat split; assumption.
  - destruct (main_pc s) eqn:Hpc; repeat split; assumption.
  - repeat split; assumption.
Qed.

Lemma heartbeat_wire_inv_call (ctx0 : Context) (schedule : list Choice) :
  heartbeat_wire_inv client0 ln
    (@ForLifecycleAction _ (awsClient_AWSClient lib) handler ctx0 notice f
       schedule client0).
Proof.
  unfold ForLifecycleAction, run.
  assert (Hinit : heartbeat_wire_inv client0 ln
            {| main_pc := AtSpawn; heartbeat_pc := NotSpawned; ctx := ctx0;
               ticker_C := false; client := client0; trace := [] |}).
  { repeat split; simpl. symmetry. apply app_nil_r. }
  revert Hinit. generalize
    {| main_pc := AtSpawn; heartbeat_pc := NotSpawned; ctx := ctx0;
       ticker_C := false; client := client0; trace := [] |}.
  induction schedule as [|choice schedule IH]; intros s Hs; simpl.
  - exact Hs.
  - apply IH. apply heartbeat_wire_inv_step. exact Hs.
Qed.

End WireHeartbeats.

(** With the AWS client, once it knows the instance and its group: in
    every run of Handle on a Launch or Termination Notice each heartbeat
    the handler sends is one heartbeat request on the wire, carrying the
    instance, the group and the Notice's hook name and action token, and
    the handler deletes no queue message. *)
Theorem heartbeats_on_the_wire (lib : Library) (handler : ServiceHandler)
    (conn : dbus.Conn) (ctx0 : Context) (notice : Notice)
    (ln : LifecycleNotice) (schedule : list Choice) (known : awsClient) :
  lifecycleNotice_of notice = Some ln ->
  InstanceID known <> "" -> AutoScalingGroupName known <> "" ->
  let s :=
    @Handle _ (awsClient_AWSClient lib) handler conn ctx0 (Some notice)
      schedule known in
  heartbeat_requests (Requests (client s))
    = heartbeat_requests (Requests known) ++
      replicate (length (heartbeats (trace s)))
        (ReqRecordLifecycleActionHeartbeat
           {| autoscaling.hb_InstanceId := InstanceID known;
              autoscaling.hb_AutoScalingGroupName := AutoScalingGroupName known;
              autoscaling.hb_LifecycleHookName := LifecycleHookName ln;
              autoscaling.hb_LifecycleActionToken :=
                LifecycleActionToken ln |}) /\
  delete_requests (Requests (client s)) = delete_requests (Requests known).
Proof.
  intros Hln Hid Hname s.
  pose proof (heartbeat_wire_inv_call lib handler notice ln
                (action_of handler conn notice) known Hln Hid Hname
                (action_of_events handler conn notice) ctx0 schedule)
    as (_ & _ & Hlog & Hdel).
  rewrite <- (@Handle_lifecycle _ (awsClient_AWSClient lib) handler conn ctx0
                notice ln schedule known Hln) in Hlog, Hdel.
  split; [exact Hlog|exact Hdel].
Qed.

Lemma heartbeats_on_the_wire_witness :
  let s :=
    @Handle _ (awsClient_AWSClient scenario.lib) scenario.web
      (scenario.systemd 7 "done") context_Background (Some scenario.launch)
      [RunMain; TickerFires; TakeTick; RunMain; TickerFires; TakeTick;
       RunMain; RunMain]
      (scenario.running_client None) in
  heartbeat_requests (Requests (client s))
    = replicate 2
        (ReqRecordLifecycleActionHeartbeat
           {| autoscaling.hb_InstanceId := "i-0aaa";
              autoscaling.hb_AutoScalingGroupName := "web-asg";
              autoscaling.hb_LifecycleHookName := "launch-hook";
              autoscaling.hb_LifecycleActionToken := "tok-1" |}) /\
  delete_requests (Requests (client s)) = [].
Proof.
  refine (heartbeats_on_the_wire scenario.lib scenario.web
            (scenario.systemd 7 "done") context_Background scenario.launch
            {| LifecycleHookName := "launch-hook";
               LifecycleActionToken := "tok-1" |}
            [RunMain; TickerFires; TakeTick; RunMain; TickerFires; TakeTick;
             RunMain; RunMain]
            (scenario.running_client None) eq_refl _ _); discriminate.
Defined.

(** ** The client's methods one by one *)

(** The two protocol calls of the AWS client, [SendHeartbeat] and
    [CompleteLifecycleAction]: either no request is made and the call
    returns an error, or exactly one request is made, for the hook and
    token of a Launch or Termination Notice, and the call returns what the
    Auto Scaling API answered.  So a nil result means the request went out
    and was accepted, and a Spot-Termination Notice is always refused
    without a request. *)
Theorem protocol_call_outcomes (ctx : Context) (notice : Notice)
    (client : awsClient) :
  (let '(err, client') := awsClient_SendHeartbeat ctx notice client in
   (Requests client' = Requests client /\ err <> None) \/
   (exists ln instanceID autoScalingGroupName,
      lifecycleNotice_of notice = Some ln /\
      Requests client'
        = Requests client ++
          [ReqRecordLifecycleActionHeartbeat
             (heartbeat_input instanceID autoScalingGroupName ln)] /\
      err = autoscaling.RecordLifecycleActionHeartbeat (AutoScaling client)
              (heartbeat_input instanceID autoScalingGroupName ln))) /\
  (let '(err, client') := awsClient_CompleteLifecycleAction ctx notice client in
   (Requests client' = Requests client /\ err <> None) \/
   (exists ln instanceID autoScalingGroupName,
      lifecycleNotice_of notice = Some ln /\
      Requests client'
        = Requests client ++
          [ReqCompleteLifecycleAction
             (complete_input instanceID autoScalingGroupName ln)] /\
      err = autoscaling.CompleteLifecycleAction (AutoScaling client)
              (complete_input instanceID autoScalingGroupName ln))) /\
  (lifecycleNotice_of notice = None ->
   snd (awsClient_SendHeartbeat ctx notice client) = client /\
   snd (awsClient_CompleteLifecycleAction ctx notice client) = client).
Proof.
  split; [|split].
  - unfold awsClient_SendHeartbeat.
    destruct (lifecycleNotice_of notice) as [ln|];
      [|left; split; [reflexivity|discriminate]].
    destruct (awsClient_GetInstanceID client) as [[instanceID err] c1] eqn:H1.
    apply awsClient_GetInstanceID_requests in H1. destruct H1 as [H1 H1'].
    destruct err as [e|]; [left; split; [exact H1|discriminate]|].
    destruct (awsClient_GetAutoScalingGroupName ctx c1)
      as [[name err] c2] eqn:H2.
    apply awsClient_GetAutoScalingGroupName_requests in H2.
    destruct H2 as [H2 H2'].
    destruct err as [e|]; [left; split; [congruence|discriminate]|].
    right. exists ln, instanceID, name. simpl.
    split; [reflexivity|]. split; congruence.
  - unfold awsClient_CompleteLifecycleAction.
    destruct (lifecycleNotice_of notice) as [ln|];
      [|left; split; [reflexivity|discriminate]].
    destruct (awsClient_GetInstanceID client) as [[instanceID err] c1] eqn:H1.
    apply awsClient_GetInstanceID_requests in H1. destruct H1 as [H1 H1'].
    destruct err as [e|]; [left; split; [exact H1|discriminate]|].
    destruct (awsClient_GetAutoScalingGroupName ctx c1)
      as [[name err] c2] eqn:H2.
    apply awsClient_GetAutoScalingGroupName_requests in H2.
    destruct H2 as [H2 H2'].
    destruct err as [e|]; [left; split; [congruence|discriminate]|].
    right. exists ln, instanceID, name. simpl.
    split; [reflexivity|]. split; congruence.
  - intros Hnone. unfold awsClient_SendHeartbeat,
      awsClient_CompleteLifecycleAction. rewrite Hnone. auto.
Qed.



(** The group name is looked up once, like the instance id; but a lookup
    with no group name remembered asks the metadata service for the
    instance id again, even when the client knows it: if that request
    fails, so does the lookup, with the same error. *)
Theorem group_name_lookup (ctx : Context) (client : awsClient) :
  (AutoScalingGroupName client <> "" ->
   forall ctx' metadata scaling,
     awsClient_GetAutoScalingGroupName ctx'
       (with_AutoScaling (with_EC2Metadata client metadata) scaling)
     = ((AutoScalingGroupName client, None),
        with_AutoScaling (with_EC2Metadata client metadata) scaling)) /\
  (forall name client1,
     awsClient_GetAutoScalingGroupName ctx client = ((name, None), client1) ->
     name <> "" -> AutoScalingGroupName client1 = name) /\
  (forall id e,
     AutoScalingGroupName client = "" ->
     ec2metadata.GetMetadata (EC2Metadata client) "instance-id"
       = (id, Some e) ->
     awsClient_GetAutoScalingGroupName ctx client = (("", Some e), client)).
Proof.
  split; [|split].
  - intros Hname ctx' metadata scaling.
    unfold awsClient_GetAutoScalingGroupName. simpl.
    apply String.eqb_neq in Hname. rewrite Hname. reflexivity.
  - intros name client1 Hget Hname.
    unfold awsClient_GetAutoScalingGroupName in Hget.
    destruct (negb (String.eqb (AutoScalingGroupName client) ""));
      [inversion Hget; subst; reflexivity|].
    destruct (ec2metadata.GetMetadata _ _) as [instanceID [e|]];
      [discriminate|].
    destruct (autoscaling.DescribeAutoScalingInstancesWithContext _ _ _)
      as [output [e|]]; [discriminate|].
    destruct output as [|instance [|? ?]]; inversion Hget; subst.
    reflexivity.
  - intros id e Hname Hmeta.
    unfold awsClient_GetAutoScalingGroupName.
    rewrite Hname, Hmeta. reflexivity.
Qed.

Lemma awsClient_GetSpotNotice_cases (lib : Library) (client : awsClient) :
  let '((notice, err), client') := awsClient_GetSpotNotice lib client in
  client' = client /\
  ((exists deadline, notice = Some (SpotNotice deadline) /\ err = None) \/
   notice = None) /\
  ((notice = None /\ err = None) <->
   exists code message origErr,
     snd (ec2metadata.GetMetadata (EC2Metadata client) "spot/termination-time")
       = Some (awserr_New code message origErr) /\
     strings_Contains (Error origErr) "404" = true).
Proof.
  unfold awsClient_GetSpotNotice.
  destruct (ec2metadata.GetMetadata (EC2Metadata client) _)
    as [output [e|]]; simpl.
  - destruct e as [msg|code message origErr].
    + split; [reflexivity|]. split; [auto|].
      split; [intros [_ Hbad]; discriminate Hbad|].
      intros (c & m & o & Hbad & _). discriminate Hbad.
    + destruct (strings_Contains (Error origErr) "404") eqn:H404.
      * split; [reflexivity|]. split; [auto|]. split; [|auto].
        intros _. exists code, message, origErr. auto.
      * split; [reflexivity|]. split; [auto|].
        split; [intros [_ Hbad]; discriminate Hbad|].
        intros (c & m & o & Heq & Hc). inversion Heq; subst.
        rewrite Hc in H404. discriminate H404.
  - destruct (time_Parse lib output) as [t [e|]].
    + split; [reflexivity|]. split; [auto|].
      split; [intros [_ Hbad]; discriminate Hbad|].
      intros (c & m & o & Hbad & _). discriminate Hbad.
    + split; [reflexivity|]. split; [left; eauto|].
      split; [intros [Hbad _]; discriminate Hbad|].
      intros (c & m & o & Hbad & _). discriminate Hbad.
Qed.


(** ** A fetch, whatever happens *)

Lemma awsClient_GetInstanceID_services client r client' :
  awsClient_GetInstanceID client = (r, client') ->
  SQS client' = SQS client.
Proof.
  unfold awsClient_GetInstanceID.
  destruct (negb (String.eqb (InstanceID client) "")); [returned|].
  destruct (negb (ec2metadata.Available (EC2Metadata client))); [returned|].
  destruct (ec2metadata.GetMetadata _ _) as [instanceID [e|]]; returned.
Qed.

Lemma switch_LifecycleTransition_not_spot (m : Message) deadline :
  switch_LifecycleTransition m <> Some (SpotNotice deadline).
Proof.
  unfold switch_LifecycleTransition.
  destruct (String.eqb _ LaunchLifecycleAction); [discriminate|].
  destruct (String.eqb _ TerminationLifecycleAction); discriminate.
Qed.

Lemma awsClient_GetLifecycleNotice_cases (lib : Library) (ctx : Context)
    (queue : Queue) (client : awsClient) :
  let '((notice, err), client') :=
    awsClient_GetLifecycleNotice lib ctx queue client in
  (notice = None \/ err = None) /\
  (forall deadline, notice <> Some (SpotNotice deadline)) /\
  (Requests client' = Requests client /\ notice = None
   \/ exists input,
        Requests client' = Requests client ++ [ReqDeleteMessage input] /\
        sqs.QueueUrl input = URL queue /\
        (notice <> None ->
         sqs.DeleteMessageWithContext (SQS client) ctx input = None)) /\
  (forall e,
     snd (fst (awsClient_GetInstanceID client)) = Some e \/
     snd (sqs.ReceiveMessageWithContext
            (SQS client) ctx (receive_input queue)) = Some e ->
     err <> None /\ Requests client' = Requests client).
Proof.
  unfold awsClient_GetLifecycleNotice.
  destruct (awsClient_GetInstanceID client) as [[instanceID err] c1] eqn:H1.
  pose proof (awsClient_GetInstanceID_services _ _ _ H1) as Hsqs.
  apply awsClient_GetInstanceID_requests in H1. destruct H1 as [Hreq _].
  destruct err as [e|].
  { repeat split; auto; discriminate. }
  rewrite Hsqs.
  destruct (sqs.ReceiveMessageWithContext (SQS client) ctx
              (receive_input queue)) as [output [e|]].
  { repeat split; auto; discriminate. }
  destruct (first_addressed lib instanceID output)
    as [Hnone|(skipped & message & rest & m & -> & Hs & Hm)].
  - rewrite (receive_nothing lib ctx queue instanceID output c1 Hnone).
    repeat split; auto; try discriminate;
      match goal with
      | Hbad : _ \/ _ |- _ => destruct Hbad as [Hbad|Hbad]; discriminate Hbad
      end.
  - rewrite (receive_skips lib ctx queue instanceID skipped _ c1 Hs).
    rewrite (receive_first lib ctx queue instanceID message rest m c1 Hm).
    rewrite Hsqs.
    destruct (sqs.DeleteMessageWithContext (SQS client) ctx
                (delete_input queue message)) as [e|] eqn:Hdel.
    + split; [auto|]. split; [discriminate|]. split.
      * right. exists (delete_input queue message). simpl.
        rewrite Hreq. repeat split. intros Hbad. congruence.
      * intros e' [Hbad|Hbad]; discriminate Hbad.
    + split; [auto|]. split; [apply switch_LifecycleTransition_not_spot|].
      split.
      * right. exists (delete_input queue message). simpl.
        rewrite Hreq. repeat split. intros _. exact Hdel.
      * intros e' [Hbad|Hbad]; discriminate Hbad.
Qed.

(** A call of GetLifecycleNotice, with nothing assumed of the outside: it
    never returns a Notice together with an error, and never a
    Spot-Termination Notice; it makes no request, or one delete request on
    the URL of its queue; a Notice is returned only when that delete was
    made and succeeded; and when the instance id cannot be had or the fetch
    fails, the error is returned and nothing is deleted. *)
Theorem fetch_outcomes (lib : Library) (ctx : Context) (queue : Queue)
    (client : awsClient) :
  let '((notice, err), client') :=
    awsClient_GetLifecycleNotice lib ctx queue client in
  (notice = None \/ err = None) /\
  (forall deadline, notice <> Some (SpotNotice deadline)) /\
  (Requests client' = Requests client /\ notice = None
   \/ exists input,
        Requests client' = Requests client ++ [ReqDeleteMessage input] /\
        sqs.QueueUrl input = URL queue /\
        (notice <> None ->
         sqs.DeleteMessageWithContext (SQS client) ctx input = None)) /\
  (forall e,
     snd (fst (awsClient_GetInstanceID client)) = Some e \/
     snd (sqs.ReceiveMessageWithContext
            (SQS client) ctx (receive_input queue)) = Some e ->
     err <> None /\ Requests client' = Requests client).
Proof. exact (awsClient_GetLifecycleNotice_cases lib ctx queue client). Qed.

(** ** Queue discovery, hook by hook *)

Lemma discover_skips lib ctx client skipped hooks (queues : QueueMap) :
  Forall (non_sqs lib) skipped ->
  queues = None ->
  discover lib ctx client (skipped ++ hooks) queues
    = discover lib ctx client hooks queues.
Proof.
  intros Hs ->. induction Hs as [|hook skipped Hhook _ IH]; [reflexivity|].
  destruct Hhook as (target & parsed & Ht & Hp & Hsvc).
  simpl. rewrite Ht. simpl. rewrite Hp.
  apply String.eqb_neq in Hsvc. rewrite Hsvc. simpl. exact IH.
Qed.

Lemma discover_returns lib ctx client hooks queues :
  discover lib ctx client hooks None = Returns (inl queues) ->
  Forall (non_sqs lib) hooks.
Proof.
  induction hooks as [|hook hooks IH]; simpl; intros Hr; [constructor|].
  destruct (autoscaling.NotificationTargetARN hook) as [target|] eqn:Ht;
    [|discriminate].
  simpl in Hr.
  destruct (arn_Parse lib target) as [parsed [e|]] eqn:Hp; [discriminate|].
  destruct (negb (String.eqb (arn.Service parsed) "sqs")) eqn:Hsvc.
  - constructor; [|exact (IH Hr)].
    exists target, parsed. repeat split; auto.
    apply negb_true_iff in Hsvc. apply String.eqb_neq. exact Hsvc.
  - destruct (sqs.GetQueueUrlWithContext (SQS client) ctx _) as [url [e|]];
      [discriminate|].
    destruct (autoscaling.LifecycleTransition hook); discriminate.
Qed.

(** Queue discovery returns without an error only for a group none of
    whose hooks notifies an SQS queue, and the list it then returns is
    empty: it never returns a queue. *)
Theorem discovery_returns_no_queue (lib : Library) (ctx : Context)
    (client client' : awsClient) (queues : list Queue) :
  awsClient_GetLifecycleNoticeQueues lib ctx client
    = Returns ((queues, None), client') ->
  queues = [] /\
  exists name hooks,
    autoscaling.DescribeLifecycleHooksWithContext (AutoScaling client') ctx name
      = (hooks, None) /\
    Forall (non_sqs lib) hooks.
Proof.
  unfold awsClient_GetLifecycleNoticeQueues.
  destruct (awsClient_GetAutoScalingGroupName ctx client) as [[name [e|]] c1].
  { intros Heq. inversion Heq. }
  destruct (autoscaling.DescribeLifecycleHooksWithContext _ ctx name)
    as [output [e|]] eqn:Hd.
  { intros Heq. inversion Heq. }
  destruct (discover lib ctx c1 output None) as [[q|e]|msg] eqn:Hdisc;
    intros Heq; inversion Heq; subst.
  pose proof (discover_nil_map _ _ _ _ _ Hdisc) as [Hq|[e Hq]];
    inversion Hq; subst.
  split; [reflexivity|]. exists name, output. split; [exact Hd|].
  eapply discover_returns. exact Hdisc.
Qed.

Lemma discovery_returns_no_queue_witness :
  [] = ([] : list Queue) /\
  exists name hooks,
    autoscaling.DescribeLifecycleHooksWithContext
      (AutoScaling (set_AutoScalingGroupName scenario.topic_client "web-asg"))
      context_Background name
      = (hooks, None) /\
    Forall (non_sqs scenario.lib_with_topic) hooks.
Proof.
  exact (discovery_returns_no_queue scenario.lib_with_topic context_Background
           scenario.topic_client
           (set_AutoScalingGroupName scenario.topic_client "web-asg")
           [] eq_refl).
Defined.

(** Queue discovery panics at the first hook that notifies an SQS queue
    whose URL can be had: the hooks before it that notify something else
    are passed over, and the entry for the queue is written to the map
    that was never made. *)
Theorem discovery_panics_at_first_queue (lib : Library) (ctx : Context)
    (client client1 : awsClient) (name : string)
    (skipped rest : list autoscaling.LifecycleHook)
    (hook : autoscaling.LifecycleHook) (target transition url : string)
    (parsed : arn.ARN) :
  awsClient_GetAutoScalingGroupName ctx client = ((name, None), client1) ->
  autoscaling.DescribeLifecycleHooksWithContext (AutoScaling client1) ctx name
    = (skipped ++ hook :: rest, None) ->
  Forall (non_sqs lib) skipped ->
  autoscaling.NotificationTargetARN hook = Some target ->
  autoscaling.LifecycleTransition hook = Some transition ->
  arn_Parse lib target = (parsed, None) ->
  arn.Service parsed = "sqs" ->
  sqs.GetQueueUrlWithContext (SQS client1) ctx
    {| sqs.QueueName := arn.Resource parsed;
       sqs.QueueOwnerAWSAccountId := arn.AccountID parsed |} = (url, None) ->
  awsClient_GetLifecycleNoticeQueues lib ctx client
    = Panics "assignment to entry in nil map".
Proof.
  intros Hname Hhooks Hs Ht Htr Hp Hsvc Hurl.
  unfold awsClient_GetLifecycleNoticeQueues.
  rewrite Hname, Hhooks.
  rewrite (discover_skips lib ctx client1 skipped _ None Hs eq_refl).
  simpl. rewrite Ht. simpl. rewrite Hp, Hsvc. simpl.
  rewrite Hurl, Htr. reflexivity.
Qed.

Lemma discovery_panics_at_first_queue_witness :
  awsClient_GetLifecycleNoticeQueues scenario.lib context_Background
    (scenario.new_client None [] None)
  = Panics "assignment to entry in nil map".
Proof.
  apply (discovery_panics_at_first_queue scenario.lib context_Background
           (scenario.new_client None [] None)
           (set_AutoScalingGroupName (scenario.new_client None [] None)
              "web-asg")
           "web-asg" []
           []
           {| autoscaling.NotificationTargetARN := Some scenario.target;
              autoscaling.LifecycleTransition := Some LaunchLifecycleAction |}
           scenario.target LaunchLifecycleAction
           "https://sqs.us-east-1.amazonaws.com/123456789012/hooks"
           {| arn.Partition := "aws"; arn.Service := "sqs";
              arn.Region := "us-east-1"; arn.AccountID := "123456789012";
              arn.Resource := "hooks" |});
    try reflexivity.
  constructor.
Defined.

(** ** The listeners, run by run *)

Lemma fold_left_inv {A B : Type} (P : B -> Prop) (step : A -> B -> B) :
  (forall a s, P s -> P (step a s)) ->
  forall l s, P s -> P (fold_left (fun s a => step a s) l s).
Proof.
  intros Hstep l. induction l as [|a l IH]; intros s Hs; simpl; auto.
Qed.

Section Runs.
Context {C : Type} `{AWSClient C}.

Lemma quiet_send (s : Listening C) :
  quiet_inv s ->
  quiet_inv
    (if arm s then
       {| notice := notice s; notices := false;
          listener_client := listener_client s; sent := sent s ++ [notice s];
          polled := polled s; logged := logged s; returned := None |}
     else s).
Proof.
  intros Hq. destruct (arm s) eqn:Harm; [|exact Hq].
  intros Hall. destruct (Hq Hall) as (Hn & Hc & Hs).
  unfold arm in Harm. rewrite Hn, Hc in Harm. discriminate Harm.
Qed.

Lemma quiet_poll (s : Listening C) notice' (client' : C) logged' :
  quiet_inv s ->
  quiet_inv
    {| notice := notice'; notices := arm s;
       listener_client := client'; sent := sent s;
       polled := polled s ++ [notice']; logged := logged';
       returned := None |}.
Proof.
  intros Hq Hall. simpl in *. apply Forall_app in Hall.
  destruct Hall as [Hall Hlast]. destruct (Hq Hall) as (Hn & Hc & Hs).
  inversion Hlast; subst. unfold arm. rewrite Hn. auto.
Qed.

Lemma quiet_done (s : Listening C) :
  quiet_inv s ->
  quiet_inv
    {| notice := notice s; notices := arm s;
       listener_client := listener_client s; sent := sent s;
       polled := polled s; logged := logged s; returned := Some None |}.
Proof.
  intros Hq Hall. simpl in *. destruct (Hq Hall) as (Hn & Hc & Hs).
  unfold arm. rewrite Hn. auto.
Qed.

Lemma SpotListener_iteration_quiet selected (s : Listening C) :
  quiet_inv s -> quiet_inv (SpotListener_iteration selected s).
Proof.
  intros Hq. unfold SpotListener_iteration.
  destruct (returned s); [exact Hq|]. destruct selected.
  - apply quiet_send. exact Hq.
  - destruct (GetSpotNotice (listener_client s)) as [[notice' err] client'].
    apply quiet_poll. exact Hq.
  - apply quiet_done. exact Hq.
Qed.

Lemma LifecycleListener_iteration_quiet ctx0 queue selected
    (s : Listening C) :
  quiet_inv s -> quiet_inv (LifecycleListener_iteration ctx0 queue selected s).
Proof.
  intros Hq. unfold LifecycleListener_iteration.
  destruct (returned s); [exact Hq|]. destruct selected.
  - apply quiet_send. exact Hq.
  - apply quiet_done. exact Hq.
  - destruct (GetLifecycleNotice ctx0 queue (listener_client s))
      as [[notice' err] client'].
    apply quiet_poll. exact Hq.
Qed.

(** A source that has found nothing sends nothing: in any run of a Spot
    or a Queue source in which every poll so far returned no Notice, no
    value at all has been put on the shared channel, not even a nil one. *)
Theorem nothing_sent_before_detection (client0 : C)
    (selects : list SpotSelect) (ctx0 : Context) (queue : Queue)
    (selects' : list LifecycleSelect) :
  let spot := SpotListener_Listen selects client0 in
  let lifecycle := LifecycleListener_Listen ctx0 queue selects' client0 in
  (Forall (eq None) (polled spot) -> sent spot = []) /\
  (Forall (eq None) (polled lifecycle) -> sent lifecycle = []).
Proof.
  intros spot lifecycle. split; intros Hall.
  - assert (Hq : quiet_inv spot).
    { apply (fold_left_inv quiet_inv
               (fun a s => SpotListener_iteration a s)
               SpotListener_iteration_quiet).
      intros _. simpl. auto. }
    destruct (Hq Hall) as (_ & _ & Hs). exact Hs.
  - assert (Hq : quiet_inv lifecycle).
    { apply (fold_left_inv quiet_inv
               (fun a s => LifecycleListener_iteration ctx0 queue a s)
               (LifecycleListener_iteration_quiet ctx0 queue)).
      intros _. simpl. auto. }
    destruct (Hq Hall) as (_ & _ & Hs). exact Hs.
Qed.

(** The slot of a source is the result of its latest poll, whatever that
    poll returned, and every value the source has put on the shared
    channel was the result of one of its polls: a poll always overwrites
    the slot, and a source sends nothing it has not polled. *)
Theorem slot_is_latest_poll (client0 : C) (selects : list SpotSelect)
    (ctx0 : Context) (queue : Queue) (selects' : list LifecycleSelect) :
  let spot := SpotListener_Listen selects client0 in
  let lifecycle := LifecycleListener_Listen ctx0 queue selects' client0 in
  (notice spot = latest (polled spot) /\
   Forall (fun v => v ∈ polled spot) (sent spot)) /\
  (notice lifecycle = latest (polled lifecycle) /\
   Forall (fun v => v ∈ polled lifecycle) (sent lifecycle)).
Proof.
  intros spot lifecycle. split.
  - destruct (run_extends (fun a s => SpotListener_iteration a s)
                SpotListener_iteration_extends selects (listening client0)
                (slot_inv_listening client0)) as [(Hn & _ & Hs) _].
    split; assumption.
  - destruct (run_extends
                (fun a s => LifecycleListener_iteration ctx0 queue a s)
                (LifecycleListener_iteration_extends ctx0 queue) selects'
                (listening client0) (slot_inv_listening client0))
      as [(Hn & _ & Hs) _].
    split; assumption.
Qed.

Lemma send_again (n : Notice) (k : nat)
    (step : Listening C -> Listening C) :
  (forall s, returned s = None -> notice s = Some n ->
     step s = {| notice := notice s; notices := false;
                 listener_client := listener_client s;
                 sent := sent s ++ [notice s]; polled := polled s;
                 logged := logged s; returned := None |}) ->
  forall s, returned s = None -> notice s = Some n ->
    sent (Nat.iter k step s) = sent s ++ replicate k (Some n) /\
    notice (Nat.iter k step s) = Some n /\
    returned (Nat.iter k step s) = None.
Proof.
  intros Hstep. induction k as [|k IH]; intros s Hr Hn; simpl.
  - rewrite app_nil_r. auto.
  - destruct (IH s Hr Hn) as (Hs & Hn' & Hr').
    rewrite (Hstep _ Hr' Hn'). simpl. rewrite Hs, Hn'.
    repeat split. rewrite <- app_assoc. f_equal.
    clear. induction k as [|k IH]; simpl; [reflexivity|].
    rewrite IH. reflexivity.
Qed.

Lemma fold_left_replicate {A B : Type} (step : A -> B -> B) (a : A) k s :
  fold_left (fun s a => step a s) (replicate k a) s = Nat.iter k (step a) s.
Proof.
  revert s. induction k as [|k IH]; intros s; simpl; [reflexivity|].
  rewrite IH. clear IH. induction k as [|k IH]; simpl; [reflexivity|].
  rewrite IH. reflexivity.
Qed.

(** A delivered Notice is offered again.  The slot is not cleared when the
    channel accepts its value: after one poll that found the Notice [n],
    the channel accepting [k] times in a row receives [n] all [k] times,
    with no poll in between. *)
Theorem delivered_notice_offered_again (n n' : Notice) (k : nat)
    (client0 client0' : C) (ctx0 : Context) (queue : Queue) :
  fst (fst (GetSpotNotice client0)) = Some n ->
  fst (fst (GetLifecycleNotice ctx0 queue client0')) = Some n' ->
  sent (SpotListener_Listen (SpotTick :: replicate k SpotSendAccepted) client0)
    = replicate k (Some n) /\
  sent (LifecycleListener_Listen ctx0 queue
          (LifecycleDefault :: replicate k LifecycleSendAccepted) client0')
    = replicate k (Some n').
Proof.
  intros Hspot Hlifecycle. split.
  - unfold SpotListener_Listen. cbn [fold_left].
    rewrite (fold_left_replicate SpotListener_iteration).
    assert (Hstep : forall s : Listening C,
              returned s = None -> notice s = Some n ->
              SpotListener_iteration SpotSendAccepted s
              = {| notice := notice s; notices := false;
                   listener_client := listener_client s;
                   sent := sent s ++ [notice s]; polled := polled s;
                   logged := logged s; returned := None |}).
    { intros s Hr Hn. unfold SpotListener_iteration, arm.
      rewrite Hr, Hn. reflexivity. }
    assert (Hfirst :
              returned (SpotListener_iteration SpotTick (listening client0))
                = None /\
              notice (SpotListener_iteration SpotTick (listening client0))
                = Some n /\
              sent (SpotListener_iteration SpotTick (listening client0)) = []).
    { unfold SpotListener_iteration. simpl.
      destruct (GetSpotNotice client0) as [[notice' err] client'].
      simpl in Hspot. subst notice'. auto. }
    destruct Hfirst as (Hr & Hn & Hs0).
    destruct (send_again n k _ Hstep _ Hr Hn) as (Hs & _).
    rewrite Hs, Hs0. reflexivity.
  - unfold LifecycleListener_Listen. cbn [fold_left].
    rewrite (fold_left_replicate (LifecycleListener_iteration ctx0 queue)).
    assert (Hstep : forall s : Listening C,
              returned s = None -> notice s = Some n' ->
              LifecycleListener_iteration ctx0 queue LifecycleSendAccepted s
              = {| notice := notice s; notices := false;
                   listener_client := listener_client s;
                   sent := sent s ++ [notice s]; polled := polled s;
                   logged := logged s; returned := None |}).
    { intros s Hr Hn. unfold LifecycleListener_iteration, arm.
      rewrite Hr, Hn. reflexivity. }
    assert (Hfirst :
              returned (LifecycleListener_iteration ctx0 queue
                          LifecycleDefault (listening client0')) = None /\
              notice (LifecycleListener_iteration ctx0 queue
                        LifecycleDefault (listening client0')) = Some n' /\
              sent (LifecycleListener_iteration ctx0 queue
                      LifecycleDefault (listening client0')) = []).
    { unfold LifecycleListener_iteration. simpl.
      destruct (GetLifecycleNotice ctx0 queue client0')
        as [[notice' err] client'].
      simpl in Hlifecycle. subst notice'. auto. }
    destruct Hfirst as (Hr & Hn & Hs0).
    destruct (send_again n' k _ Hstep _ Hr Hn) as (Hs & _).
    rewrite Hs, Hs0. reflexivity.
Qed.

End Runs.

Section Returning.
Context {C : Type} `{AWSClient C}.

Lemma SpotListener_frozen (selects : list SpotSelect) (s : Listening C) :
  returned s <> None ->
  fold_left (fun s selected => SpotListener_iteration selected s) selects s = s.
Proof.
  intros Hr. induction selects as [|a selects IH]; simpl; [reflexivity|].
  assert (Hs : SpotListener_iteration a s = s).
  { unfold SpotListener_iteration. destruct (returned s); congruence. }
  rewrite Hs. exact IH.
Qed.

Lemma LifecycleListener_frozen ctx0 queue (selects : list LifecycleSelect)
    (s : Listening C) :
  returned s <> None ->
  fold_left (fun s selected => LifecycleListener_iteration ctx0 queue selected s)
            selects s = s.
Proof.
  intros Hr. induction selects as [|a selects IH]; simpl; [reflexivity|].
  assert (Hs : LifecycleListener_iteration ctx0 queue a s = s).
  { unfold LifecycleListener_iteration. destruct (returned s); congruence. }
  rewrite Hs. exact IH.
Qed.

Lemma SpotListener_returned (selects : list SpotSelect) (s : Listening C) :
  returned s = None ->
  let s' :=
    fold_left (fun s selected => SpotListener_iteration selected s) selects s in
  (returned s' = None \/ returned s' = Some None) /\
  (returned s' = Some None <-> SpotDone ∈ selects).
Proof.
  revert s. induction selects as [|a selects IH]; intros s Hr; simpl.
  - rewrite Hr. split; [auto|]. split; [discriminate|].
    intros Hin. apply elem_of_nil in Hin. contradiction.
  - destruct a.
    + assert (Hr' : returned (SpotListener_iteration SpotSendAccepted s) = None).
      { unfold SpotListener_iteration. rewrite Hr.
        destruct (arm s); [reflexivity|exact Hr]. }
      destruct (IH _ Hr') as [Hcases Hiff]. split; [exact Hcases|].
      rewrite Hiff. rewrite elem_of_cons. split; [auto|].
      intros [Hbad|Hin]; [discriminate Hbad|exact Hin].
    + assert (Hr' : returned (SpotListener_iteration SpotTick s) = None).
      { unfold SpotListener_iteration. rewrite Hr.
        destruct (GetSpotNotice _) as [[notice' err] client']. reflexivity. }
      destruct (IH _ Hr') as [Hcases Hiff]. split; [exact Hcases|].
      rewrite Hiff. rewrite elem_of_cons. split; [auto|].
      intros [Hbad|Hin]; [discriminate Hbad|exact Hin].
    + assert (Hr' : returned (SpotListener_iteration SpotDone s) = Some None).
      { unfold SpotListener_iteration. rewrite Hr. reflexivity. }
      rewrite SpotListener_frozen by (rewrite Hr'; discriminate).
      rewrite Hr'. split; [auto|]. split; [|reflexivity].
      intros _. apply elem_of_cons. auto.
Qed.

Lemma LifecycleListener_returned ctx0 queue (selects : list LifecycleSelect)
    (s : Listening C) :
  returned s = None ->
  let s' :=
    fold_left
      (fun s selected => LifecycleListener_iteration ctx0 queue selected s)
      selects s in
  (returned s' = None \/ returned s' = Some None) /\
  (returned s' = Some None <-> LifecycleDone ∈ selects).
Proof.
  revert s. induction selects as [|a selects IH]; intros s Hr; simpl.
  - rewrite Hr. split; [auto|]. split; [discriminate|].
    intros Hin. apply elem_of_nil in Hin. contradiction.
  - destruct a.
    + assert (Hr' : returned (LifecycleListener_iteration ctx0 queue
                                LifecycleSendAccepted s) = None).
      { unfold LifecycleListener_iteration. rewrite Hr.
        destruct (arm s); [reflexivity|exact Hr]. }
      destruct (IH _ Hr') as [Hcases Hiff]. split; [exact Hcases|].
      rewrite Hiff. rewrite elem_of_cons. split; [auto|].
      intros [Hbad|Hin]; [discriminate Hbad|exact Hin].
    + assert (Hr' : returned (LifecycleListener_iteration ctx0 queue
                                LifecycleDone s) = Some None).
      { unfold LifecycleListener_iteration. rewrite Hr. reflexivity. }
      rewrite LifecycleListener_frozen by (rewrite Hr'; discriminate).
      rewrite Hr'. split; [auto|]. split; [|reflexivity].
      intros _. apply elem_of_cons. auto.
    + assert (Hr' : returned (LifecycleListener_iteration ctx0 queue
                                LifecycleDefault s) = None).
      { unfold LifecycleListener_iteration. rewrite Hr.
        destruct (GetLifecycleNotice _ _ _) as [[notice' err] client'].
        reflexivity. }
      destruct (IH _ Hr') as [Hcases Hiff]. split; [exact Hcases|].
      rewrite Hiff. rewrite elem_of_cons. split; [auto|].
      intros [Hbad|Hin]; [discriminate Hbad|exact Hin].
Qed.

(** Listen never returns an error.  A Spot or a Queue source returns only
    by taking [ctx.Done()], and what it returns is nil: no failed poll,
    however many there are, ends it.  Once it has returned nothing
    happens any more. *)
Theorem Listen_returns_nil_on_done (client0 : C)
    (selects : list SpotSelect) (ctx0 : Context) (queue : Queue)
    (selects' : list LifecycleSelect) :
  let spot := SpotListener_Listen selects client0 in
  let lifecycle := LifecycleListener_Listen ctx0 queue selects' client0 in
  ((returned spot = None \/ returned spot = Some None) /\
   (returned spot = Some None <-> SpotDone ∈ selects) /\
   (returned spot <> None ->
    forall more, SpotListener_Listen (selects ++ more) client0 = spot)) /\
  ((returned lifecycle = None \/ returned lifecycle = Some None) /\
   (returned lifecycle = Some None <-> LifecycleDone ∈ selects') /\
   (returned lifecycle <> None ->
    forall more,
      LifecycleListener_Listen ctx0 queue (selects' ++ more) client0
        = lifecycle)).
Proof.
  intros spot lifecycle. split.
  - destruct (SpotListener_returned selects (listening client0) eq_refl)
      as [Hcases Hiff].
    split; [exact Hcases|]. split; [exact Hiff|].
    intros Hr more. unfold SpotListener_Listen. rewrite fold_left_app.
    apply SpotListener_frozen. exact Hr.
  - destruct (LifecycleListener_returned ctx0 queue selects'
                (listening client0) eq_refl) as [Hcases Hiff].
    split; [exact Hcases|]. split; [exact Hiff|].
    intros Hr more. unfold LifecycleListener_Listen. rewrite fold_left_app.
    apply LifecycleListener_frozen. exact Hr.
Qed.

End Returning.

(** ** The sources on the AWS client *)

Section SourcesOnAWS.
Variable lib : Library.

(** The Spot source only reads: in any run on the AWS client it leaves
    the client as it found it, cached identity and request log included,
    and every value it polls is a Spot-Termination Notice or nil. *)
Theorem spot_source_reads_only (selects : list SpotSelect)
    (client0 : awsClient) :
  let s :=
    @SpotListener_Listen _ (awsClient_AWSClient lib) selects client0 in
  listener_client s = client0 /\
  Forall (fun v => v = None \/ exists deadline, v = Some (SpotNotice deadline))
         (polled s).
Proof.
  cbv zeta. unfold SpotListener_Listen.
  apply (fold_left_inv
           (fun s : Listening awsClient =>
              listener_client s = client0 /\
              Forall (fun v => v = None \/
                               exists deadline, v = Some (SpotNotice deadline))
                     (polled s))
           (fun a s => @SpotListener_iteration _ (awsClient_AWSClient lib) a s)).
  - intros a s [Hc Hp]. unfold SpotListener_iteration.
    destruct (returned s); [auto|]. destruct a; simpl.
    + destruct (arm s); simpl; auto.
    + pose proof (awsClient_GetSpotNotice_cases lib (listener_client s)) as Hout.
      destruct (awsClient_GetSpotNotice lib (listener_client s))
        as [[notice' err] client'].
      destruct Hout as (-> & Hcases & _). simpl. split; [exact Hc|].
      apply Forall_app. split; [exact Hp|]. constructor; [|constructor].
      destruct Hcases as [(deadline & -> & _)| ->]; eauto.
    + auto.
  - simpl. split; [reflexivity|constructor].
Qed.

(** A Notice costs a message.  In any run of a Queue source on the AWS
    client the requests it has added to the log are delete requests on the
    URL of its queue, at most one per poll and at least one per poll that
    found a Notice: whatever became of the Notices in the slot, their
    messages are gone from the queue. *)
Theorem queue_source_deletes (ctx0 : Context) (queue : Queue)
    (selects : list LifecycleSelect) (client0 : awsClient) :
  let s :=
    @LifecycleListener_Listen _ (awsClient_AWSClient lib) ctx0 queue selects
      client0 in
  exists deleted,
    Requests (listener_client s) = Requests client0 ++ deleted /\
    Forall (fun r => exists input,
              r = ReqDeleteMessage input /\ sqs.QueueUrl input = URL queue)
           deleted /\
    length (found (polled s)) <= length deleted <= length (polled s).
Proof.
  cbv zeta. unfold LifecycleListener_Listen.
  apply (fold_left_inv
           (fun s : Listening awsClient =>
              exists deleted,
                Requests (listener_client s) = Requests client0 ++ deleted /\
                Forall (fun r => exists input,
                          r = ReqDeleteMessage input /\
                          sqs.QueueUrl input = URL queue) deleted /\
                length (found (polled s)) <= length deleted
                  <= length (polled s))
           (fun a s =>
              @LifecycleListener_iteration _ (awsClient_AWSClient lib)
                ctx0 queue a s)).
  - intros a s (deleted & Hlog & Hdel & Hlen).
    unfold LifecycleListener_iteration.
    destruct (returned s); [eauto|]. destruct a; simpl.
    + destruct (arm s); simpl; eauto.
    + eauto.
    + pose proof (awsClient_GetLifecycleNotice_cases lib ctx0 queue
                    (listener_client s)) as Hout.
      destruct (awsClient_GetLifecycleNotice lib ctx0 queue
                  (listener_client s)) as [[notice' err] client'].
      destruct Hout as (_ & _ & Hreq & _). simpl.
      unfold found in *. rewrite List.filter_app, !length_app. simpl.
      destruct Hreq as [[Hsame ->]|(input & Hone & Hurl & _)].
      * exists deleted. rewrite Hsame. split; [exact Hlog|].
        split; [exact Hdel|]. simpl. lia.
      * exists (deleted ++ [ReqDeleteMessage input]).
        rewrite Hone, Hlog. split; [symmetry; apply app_assoc|].
        split; [apply Forall_app; split; [exact Hdel|]; repeat constructor;
                eauto|].
        rewrite length_app. simpl. destruct notice'; simpl; lia.
  - exists []. simpl. split; [symmetry; apply app_nil_r|].
    split; [constructor|lia].
Qed.

End SourcesOnAWS.

(** ** The program as a whole *)

Section WholeProgram.
Context {C : Type} `{AWSClient C}.
Variable Handle : Context -> option Notice -> C -> option error * C.

Lemma dispatch_is_over (received : list cmd.Received) (client : C) :
  cmd.dispatch Handle received client
    = cmd.LoopOver context_Background client [] [].
Proof. unfold cmd.dispatch. destruct received; reflexivity. Qed.

Lemma main_start_cases (spotInterval : Duration)
    (received : list cmd.Received) (client0 : C) (p : cmd.Program C) :
  cmd.main_start Handle spotInterval received client0 = cmd.InWait p ->
  exists queues client,
    GetLifecycleNoticeQueues context_Background client0
      = Returns ((queues, None), client) /\
    p = {| cmd.program_ctx := context_Background;
           cmd.program_client := client;
           cmd.listeners :=
             map (fun listener => (listener, listening client))
                 (NewSpotListener spotInterval :: map NewLifecycleListener queues);
           cmd.signals := false |}.
Proof.
  unfold cmd.main_start.
  destruct (GetLifecycleNoticeQueues context_Background client0)
    as [[[queues [e|]] client]|msg]; try discriminate.
  rewrite dispatch_is_over.
  intros Heq. inversion Heq. eauto.
Qed.

Lemma iteration_keeps_waiting (ctx0 : Context) (listener : Listener)
    (selected : Selected) (s : Listening C) :
  selected = OfSpot SpotTick \/ selected = OfLifecycle LifecycleDefault ->
  returned s = None -> sent s = [] ->
  returned (Listener_iteration ctx0 listener selected s) = None /\
  sent (Listener_iteration ctx0 listener selected s) = [].
Proof.
  intros Hsel Hr Hs. unfold Listener_iteration.
  destruct Hsel as [-> | ->]; destruct listener; auto.
  - unfold SpotListener_iteration. rewrite Hr.
    destruct (GetSpotNotice _) as [[notice' err] client']. auto.
  - unfold LifecycleListener_iteration. rewrite Hr.
    destruct (GetLifecycleNotice _ _ _) as [[notice' err] client']. auto.
  - unfold LifecycleListener_iteration. rewrite Hr.
    destruct (GetLifecycleNotice _ _ _) as [[notice' err] client']. auto.
Qed.

Lemma Program_inv_step (h : cmd.Happens) (p : cmd.Program C) :
  cmd.Program_inv p ->
  cmd.Program_inv (cmd.Program_step h p) /\
  (cmd.listeners (cmd.Program_step h p)).*1 = (cmd.listeners p).*1.
Proof.
  intros (Hctx & Hne & Hall). destruct h as [|i selected]; simpl.
  - repeat split; assumption.
  - destruct (cmd.listeners p !! i) as [[listener s]|] eqn:Hi;
      [|repeat split; assumption].
    destruct (cmd.can_take p selected) eqn:Htake;
      [|repeat split; assumption].
    assert (Hsel : selected = OfSpot SpotTick \/
                   selected = OfLifecycle LifecycleDefault).
    { unfold cmd.can_take in Htake. rewrite Hctx in Htake.
      destruct selected as [[]|[]]; try discriminate Htake; auto. }
    assert (Hs : returned s = None /\ sent s = []).
    { rewrite Forall_forall in Hall.
      apply (Hall (listener, s)). apply list_elem_of_lookup. eauto. }
    destruct Hs as [Hr Hs].
    destruct (iteration_keeps_waiting (cmd.program_ctx p) listener selected
                (with_client s (cmd.program_client p)) Hsel Hr Hs)
      as [Hr' Hs'].
    simpl. repeat split.
    + exact Hctx.
    + intros Hnil. destruct (cmd.listeners p) as [|ls rest];
        [congruence|]. destruct i; discriminate Hnil.
    + apply Forall_insert; [exact Hall|]. simpl. auto.
    + rewrite list_fmap_insert. simpl. apply list_insert_id.
      rewrite list_lookup_fmap, Hi. reflexivity.
Qed.

Lemma Program_inv_run (happens : list cmd.Happens) (p : cmd.Program C) :
  cmd.Program_inv p ->
  cmd.Program_inv (cmd.Program_run happens p) /\
  (cmd.listeners (cmd.Program_run happens p)).*1 = (cmd.listeners p).*1.
Proof.
  revert p. induction happens as [|h happens IH]; intros p Hp; simpl.
  - auto.
  - destruct (Program_inv_step h p Hp) as [Hp' Hkinds].
    destruct (IH _ Hp') as [Hp'' Hkinds'].
    split; [exact Hp''|]. unfold cmd.Program_run in *. congruence.
Qed.

(** The program neither handles a Notice nor ends.  When [main] gets past
    queue discovery it is in [group.Wait()] at once, the dispatch loop
    being over before its first receive.  From then on, whatever the
    listeners poll and however many interrupts arrive: the context is
    never canceled, no listener returns, no value is ever accepted on the
    notices channel, the same listeners are there, and [group.Wait()]
    does not return. *)
Theorem main_waits_forever (spotInterval : Duration)
    (received : list cmd.Received) (client0 : C) (p : cmd.Program C)
    (happens : list cmd.Happens) :
  cmd.main_start Handle spotInterval received client0 = cmd.InWait p ->
  let p' := cmd.Program_run happens p in
  cmd.Wait_returns p' = false /\
  ctx_Done (cmd.program_ctx p') = false /\
  Forall (fun ls => returned (snd ls) = None /\ sent (snd ls) = [])
         (cmd.listeners p') /\
  (cmd.listeners p').*1 = (cmd.listeners p).*1.
Proof.
  intros Hstart p'.
  destruct (main_start_cases _ _ _ _ Hstart) as (queues & client & _ & ->).
  destruct (Program_inv_run happens
              {| cmd.program_ctx := context_Background;
                 cmd.program_client := client;
                 cmd.listeners :=
                   map (fun listener => (listener, listening client))
                       (NewSpotListener spotInterval
                        :: map NewLifecycleListener queues);
                 cmd.signals := false |})
    as [(Hctx & Hne & Hall) Hkinds].
  { split; [reflexivity|]. split; [discriminate|].
    simpl. constructor; [auto|].
    apply Forall_forall. intros ls Hin.
    apply list_elem_of_fmap in Hin. destruct Hin as (listener & -> & _).
    auto. }
  fold p' in Hctx, Hne, Hall, Hkinds.
  split; [|auto].
  unfold cmd.Wait_returns. destruct (cmd.listeners p') as [|ls rest];
    [congruence|].
  inversion Hall as [|? ? [Hr _] _]; subst. simpl. rewrite Hr. reflexivity.
Qed.

End WholeProgram.

(** With the AWS client [main] never starts a Queue source: it ends at
    startup, by [log.Fatalf] or by the panic of queue discovery, or it is
    in [group.Wait()] with the Spot source as its only listener. *)
Theorem main_starts_spot_source_only (lib : Library)
    (Handle : Context -> option Notice -> awsClient -> option error * awsClient)
    (spotInterval : Duration) (received : list cmd.Received)
    (client0 : awsClient) :
  (exists msg,
     @cmd.main_start _ (awsClient_AWSClient lib) Handle spotInterval received
       client0 = cmd.Fatal msg) \/
  (exists msg,
     @cmd.main_start _ (awsClient_AWSClient lib) Handle spotInterval received
       client0 = cmd.Crashed msg) \/
  (exists p,
     @cmd.main_start _ (awsClient_AWSClient lib) Handle spotInterval received
       client0 = cmd.InWait p /\
     cmd.listeners p
       = [(SpotListener spotInterval, listening (cmd.program_client p))]).
Proof.
  destruct (@cmd.main_start _ (awsClient_AWSClient lib) Handle spotInterval
              received client0) as [msg|msg|l|p] eqn:Hstart; eauto.
  - exfalso. unfold cmd.main_start in Hstart.
    destruct (@GetLifecycleNoticeQueues _ (awsClient_AWSClient lib)
                context_Background client0)
      as [[[queues [e|]] client]|msg]; try discriminate.
    rewrite (@dispatch_is_over awsClient Handle received client) in Hstart.
    discriminate.
  - right. right. exists p. split; [reflexivity|].
    destruct (@main_start_cases _ (awsClient_AWSClient lib) Handle
                spotInterval received client0 p Hstart)
      as (queues & client & Hq & ->).
    simpl in Hq. apply GetLifecycleNoticeQueues_never_lists in Hq.
    subst queues. reflexivity.
Qed.

(** ** The listener built for a queue *)

(** The listener built for a queue is a launch listener exactly when the
    queue's action is the launch constant; for the termination constant
    and for any other action, an unknown one included, it is a termination
    listener.  The kind shows in [Type()] only: whatever the kind, the
    listener listens to that queue as a [LifecycleListener] does. *)
Theorem lifecycle_listener_kind (queue : Queue) :
  (Listener_Type (NewLifecycleListener queue) = "launch" <->
   Action queue = LaunchLifecycleAction) /\
  (Listener_Type (NewLifecycleListener queue) = "termination" <->
   Action queue <> LaunchLifecycleAction) /\
  (forall (C : Type) (client : AWSClient C) ctx0 selected (s : Listening C),
     Listener_iteration ctx0 (NewLifecycleListener queue)
       (OfLifecycle selected) s
     = LifecycleListener_iteration ctx0 queue selected s).
Proof.
  unfold NewLifecycleListener.
  destruct (String.eqb (Action queue) LaunchLifecycleAction) eqn:Hl.
  - apply String.eqb_eq in Hl. repeat split; auto; try discriminate.
    intros Hbad. contradiction.
  - apply String.eqb_neq in Hl.
    destruct (String.eqb (Action queue) TerminationLifecycleAction);
      repeat split; auto; try discriminate; intros Hbad; contradiction.
Qed.

(** ** The further properties on the scripted instance *)

Lemma action_once_before_completion_witness :
  let s :=
    @Handle _ (awsClient_AWSClient scenario.lib) scenario.web
      (scenario.systemd 7 "done") context_Background (Some scenario.launch)
      [RunMain; RunMain; TickerFires; RunMain; TakeTick; RunMain]
      (scenario.new_client None [] None) in
  systemd_calls (trace s) = [StartUnit "web.service" "fail"] /\
  systemd_calls (after_completion (trace s)) = [].
Proof.
  pose proof
    (@action_once_before_completion _ (awsClient_AWSClient scenario.lib)
       scenario.web (scenario.systemd 7 "done") context_Background
       scenario.launch
       {| LifecycleHookName := "launch-hook"; LifecycleActionToken := "tok-1" |}
       [RunMain; RunMain; TickerFires; RunMain; TakeTick; RunMain]
       (scenario.new_client None [] None) eq_refl) as (_ & Hsent & Hafter).
  split; [|exact Hafter]. apply Hsent. discriminate.
Defined.

Lemma heartbeats_bounded_by_ticks_witness :
  let schedule :=
    [RunMain; TickerFires; TickerFires; TakeTick; TakeTick; RunMain;
     TickerFires; TakeTick] in
  let s :=
    @Handle _ (awsClient_AWSClient scenario.lib) scenario.web
      (scenario.systemd 7 "done") context_Background (Some scenario.launch)
      schedule (scenario.new_client None [] None) in
  length (heartbeats (trace s)) <= fires schedule /\
  Forall (eq (Heartbeat scenario.launch)) (heartbeats (trace s)).
Proof.
  exact (@heartbeats_bounded_by_ticks _ (awsClient_AWSClient scenario.lib)
           scenario.web (scenario.systemd 7 "done") context_Background
           scenario.launch
           {| LifecycleHookName := "launch-hook";
              LifecycleActionToken := "tok-1" |}
           [RunMain; TickerFires; TickerFires; TakeTick; TakeTick; RunMain;
            TickerFires; TakeTick]
           (scenario.new_client None [] None) eq_refl).
Defined.

(** Two ticks in a row leave one tick waiting: three ticks, two
    heartbeats. *)
Example ticks_are_dropped :
  let schedule :=
    [RunMain; TickerFires; TickerFires; TakeTick; TakeTick; RunMain;
     TickerFires; TakeTick] in
  length (heartbeats (trace
    (@Handle _ (awsClient_AWSClient scenario.lib) scenario.web
       (scenario.systemd 7 "done") context_Background (Some scenario.launch)
       schedule (scenario.new_client None [] None)))) = 2 /\
  fires schedule = 3.
Proof. split; reflexivity. Qed.

Lemma heartbeat_task_exits_after_return_witness :
  let finish := [RunMain; RunMain; RunMain; RunMain; TakeDone] in
  let s :=
    @Handle _ (awsClient_AWSClient scenario.lib) scenario.web
      (scenario.systemd 7 "done") context_Background (Some scenario.launch)
      ([RunMain; TickerFires] ++ finish) (scenario.new_client None [] None) in
  heartbeat_pc s = Exited /\
  heartbeats
    (trace (@Handle _ (awsClient_AWSClient scenario.lib) scenario.web
              (scenario.systemd 7 "done") context_Background
              (Some scenario.launch)
              (([RunMain; TickerFires] ++ finish) ++ [TakeTick; TickerFires])
              (scenario.new_client None [] None)))
    = heartbeats (trace s).
Proof.
  exact (@heartbeat_task_exits_after_return _
           (awsClient_AWSClient scenario.lib)
           scenario.web (scenario.systemd 7 "done") context_Background
           scenario.launch
           {| LifecycleHookName := "launch-hook";
              LifecycleActionToken := "tok-1" |}
           [RunMain; TickerFires] [TakeTick; TickerFires]
           (scenario.new_client None [] None) eq_refl).
Defined.

Lemma launch_starts_others_stop_witness :
  StartUnit "web.service" "fail" = StartUnit (Service scenario.web) "fail".
Proof.
  refine (@launch_starts_others_stop _ (awsClient_AWSClient scenario.lib)
            scenario.web (scenario.systemd 7 "done") context_Background
            scenario.launch [RunMain; RunMain; RunMain; RunMain]
            (scenario.new_client None [] None)
            (StartUnit "web.service" "fail") _ eq_refl).
  apply list_elem_of_In. simpl. auto.
Defined.

Lemma delivered_notice_offered_again_witness :
  sent (@SpotListener_Listen _ (awsClient_AWSClient scenario.lib)
          (SpotTick :: replicate 3 SpotSendAccepted) scenario.reclaimed_client)
    = replicate 3 (Some (SpotNotice scenario.deadline)) /\
  sent (@LifecycleListener_Listen _ (awsClient_AWSClient scenario.lib)
          context_Background scenario.hooks
          (LifecycleDefault :: replicate 3 LifecycleSendAccepted)
          (scenario.new_client None [scenario.launch_message] None))
    = replicate 3 (Some scenario.launch).
Proof.
  exact (@delivered_notice_offered_again _ (awsClient_AWSClient scenario.lib)
           (SpotNotice scenario.deadline) scenario.launch 3
           scenario.reclaimed_client
           (scenario.new_client None [scenario.launch_message] None)
           context_Background scenario.hooks eq_refl eq_refl).
Defined.

Lemma main_waits_forever_witness :
  let client := set_AutoScalingGroupName scenario.topic_client "web-asg" in
  let p :=
    {| cmd.program_ctx := context_Background;
       cmd.program_client := client;
       cmd.listeners := [(SpotListener 30%Z, listening client)];
       cmd.signals := false |} in
  let p' :=
    @cmd.Program_run _ (awsClient_AWSClient scenario.lib_with_topic)
      [cmd.Interrupt; cmd.Selects 0 (OfSpot SpotTick);
       cmd.Selects 0 (OfSpot SpotDone);
       cmd.Selects 0 (OfSpot SpotSendAccepted)] p in
  cmd.Wait_returns p' = false /\
  ctx_Done (cmd.program_ctx p') = false /\
  Forall (fun ls => returned (snd ls) = None /\ sent (snd ls) = [])
         (cmd.listeners p') /\
  (cmd.listeners p').*1 = (cmd.listeners p).*1.
Proof.
  exact (@main_waits_forever _ (awsClient_AWSClient scenario.lib_with_topic)
           (fun _ _ c => (None, c)) 30%Z [cmd.FromSignals]
           scenario.topic_client _
           [cmd.Interrupt; cmd.Selects 0 (OfSpot SpotTick);
            cmd.Selects 0 (OfSpot SpotDone);
            cmd.Selects 0 (OfSpot SpotSendAccepted)] eq_refl).
Defined.

(** ** From the queue to the acknowledgment *)

Lemma awsClient_GetInstanceID_cached client id client1 :
  awsClient_GetInstanceID client = ((id, None), client1) ->
  InstanceID client1 = id.
Proof.
  unfold awsClient_GetInstanceID.
  destruct (negb (String.eqb (InstanceID client) ""));
    [intros Heq; inversion Heq; subst; reflexivity|].
  destruct (negb (ec2metadata.Available (EC2Metadata client)));
    [discriminate|].
  destruct (ec2metadata.GetMetadata _ _) as [instanceID [e|]];
    [discriminate|].
  intros Heq. inversion Heq; subst. reflexivity.
Qed.

Lemma switch_LifecycleTransition_payload (m : Message) (notice : Notice) :
  switch_LifecycleTransition m = Some notice ->
  lifecycleNotice_of notice
    = Some {| LifecycleHookName := msg_LifecycleHookName m;
              LifecycleActionToken := msg_LifecycleActionToken m |}.
Proof.
  unfold switch_LifecycleTransition.
  destruct (String.eqb _ LaunchLifecycleAction);
    [intros Heq; inversion Heq; reflexivity|].
  destruct (String.eqb _ TerminationLifecycleAction);
    [intros Heq; inversion Heq; reflexivity|discriminate].
Qed.

(** The acknowledgment is for the message that was deleted.  When a fetch
    on the AWS client returns a Notice and that Notice is handled with the
    client as the fetch left it, the instance and its group being known:
    the last request of the fetch deleted a message addressed to this
    instance, and once Handle has returned the one completion request it
    has added names that message's instance, hook name and action token,
    with the result CONTINUE. *)
Theorem notice_acknowledged_for_its_message (lib : Library)
    (handler : ServiceHandler) (conn : dbus.Conn) (ctx : Context)
    (queue : Queue) (client0 client1 : awsClient) (notice : Notice)
    (schedule : list Choice) (err : option error) :
  awsClient_GetLifecycleNotice lib ctx queue client0
    = ((Some notice, None), client1) ->
  InstanceID client1 <> "" -> AutoScalingGroupName client1 <> "" ->
  let s :=
    @Handle _ (awsClient_AWSClient lib) handler conn ctx (Some notice)
      schedule client1 in
  result s = Some err ->
  exists message m,
    json_Unmarshal lib (sqs.Body message) = Some m /\
    EC2InstanceID m = InstanceID client1 /\
    last (Requests client1)
      = Some (ReqDeleteMessage (delete_input queue message)) /\
    completion_requests (Requests (client s))
      = completion_requests (Requests client1) ++
        [ReqCompleteLifecycleAction
           {| autoscaling.InstanceId := EC2InstanceID m;
              autoscaling.AutoScalingGroupName := AutoScalingGroupName client1;
              autoscaling.LifecycleHookName := msg_LifecycleHookName m;
              autoscaling.LifecycleActionToken := msg_LifecycleActionToken m;
              autoscaling.LifecycleActionResult := "CONTINUE" |}].
Proof.
  intros Hfetch Hid Hname s Hres.
  unfold awsClient_GetLifecycleNotice in Hfetch.
  destruct (awsClient_GetInstanceID client0) as [[id [e|]] c1] eqn:H1;
    [discriminate|].
  apply awsClient_GetInstanceID_cached in H1.
  destruct (sqs.ReceiveMessageWithContext (SQS c1) ctx (receive_input queue))
    as [output [e|]]; [discriminate|].
  destruct (first_addressed lib id output)
    as [Hnone|(skipped & message & rest & m & -> & Hs & Hm)].
  { rewrite (receive_nothing lib ctx queue id output c1 Hnone) in Hfetch.
    discriminate. }
  rewrite (receive_skips lib ctx queue id skipped _ c1 Hs) in Hfetch.
  rewrite (receive_first lib ctx queue id message rest m c1 Hm) in Hfetch.
  destruct (sqs.DeleteMessageWithContext (SQS c1) ctx
              (delete_input queue message)) as [e|]; [discriminate|].
  inversion Hfetch as [[Hswitch Hclient]]. clear Hfetch.
  apply switch_LifecycleTransition_payload in Hswitch.
  assert (Hbody : json_Unmarshal lib (sqs.Body message) = Some m /\
                  EC2InstanceID m = id).
  { unfold addressed_to in Hm.
    destruct (json_Unmarshal lib (sqs.Body message)) as [m'|];
      [|discriminate].
    destruct (String.eqb (EC2InstanceID m') id) eqn:Heqb; [|discriminate].
    inversion Hm; subst m'. apply String.eqb_eq in Heqb. auto. }
  destruct Hbody as [Hbody Hmid].
  assert (Hid1 : InstanceID client1 = id).
  { rewrite <- Hclient. simpl. exact H1. }
  exists message, m. split; [exact Hbody|]. split; [congruence|]. split.
  - simpl. apply last_snoc.
  - subst s. rewrite <- Hclient in Hres |- *. rewrite <- Hclient in Hid, Hname.
    rewrite (Handle_completion_request lib handler conn ctx notice _
               schedule _ err Hswitch Hid Hname Hres).
    unfold complete_input. simpl. rewrite H1, Hmid. reflexivity.
Qed.

Lemma notice_acknowledged_for_its_message_witness :
  let client1 :=
    issue (scenario.serving_client
             [scenario.other_message; scenario.launch_message])
      (ReqDeleteMessage
         (delete_input scenario.hooks scenario.launch_message)) in
  let s :=
    @Handle _ (awsClient_AWSClient scenario.lib) scenario.web
      (scenario.systemd 7 "done") context_Background (Some scenario.launch)
      [RunMain; RunMain; RunMain; RunMain] client1 in
  exists message m,
    json_Unmarshal scenario.lib (sqs.Body message) = Some m /\
    EC2InstanceID m = InstanceID client1 /\
    last (Requests client1)
      = Some (ReqDeleteMessage (delete_input scenario.hooks message)) /\
    completion_requests (Requests (client s))
      = completion_requests (Requests client1) ++
        [ReqCompleteLifecycleAction
           {| autoscaling.InstanceId := EC2InstanceID m;
              autoscaling.AutoScalingGroupName := AutoScalingGroupName client1;
              autoscaling.LifecycleHookName := msg_LifecycleHookName m;
              autoscaling.LifecycleActionToken := msg_LifecycleActionToken m;
              autoscaling.LifecycleActionResult := "CONTINUE" |}].
Proof.
  refine (notice_acknowledged_for_its_message scenario.lib scenario.web
            (scenario.systemd 7 "done") context_Background scenario.hooks
            (scenario.serving_client
               [scenario.other_message; scenario.launch_message])
            _ scenario.launch [RunMain; RunMain; RunMain; RunMain] None
            eq_refl _ _ eq_refl); discriminate.
Defined.
